(** * BLE UART link: Central and Peripheral state machines

    Shallow embedding of [BLEUartCentral.py] (class [BLECentral]) and
    [BLEUartPeripheral.py] (class [BLEperipheral]).

    Conventions of the embedding:
    - an attribute that holds [None] or a value is an [option];
    - Python truthiness ([if x:], [not x]) is written out by [truthy_*]:
      [None], the integer [0] and the empty byte string are falsy; a
      callback attribute is [None] or a function, which is truthy, so
      that its test is a [match];
    - [==] between two Python values is [bool_decide] of Leibniz equality;
    - a method returns the new object state together with the trace of
      what it asked of the BLE stack, which callbacks it invoked and what
      it printed, in program order;
    - [try: call ... except OSError: pass] takes the outcome of the call
      as an argument; a call into the stack outside a [try] is taken to
      return;
    - a callback is an opaque identifier: invoking it is recorded in the
      trace, and whatever the callee then does to the object is a later
      call of a method. *)

From stdpp Require Import base decidable option list gmap.
From Stdlib Require Import ZArith String Ascii Strings.Byte Lia.

Local Open Scope Z_scope.

(** ** Python values shared by both roles *)

Definition bytes := list byte.
Definition uuid := Z.
Definition callback := nat.

#[global] Instance byte_eq_decision : EqDecision byte := Byte.byte_eq_dec.
#[global] Instance string_eq_decision : EqDecision string := String.string_dec.

Definition truthy_int (o : option Z) : bool :=
  match o with
  | Some z => negb (z =? 0)
  | None => false
  end.

Definition truthy_bytes (o : option bytes) : bool :=
  match o with
  | Some (_ :: _) => true
  | _ => false
  end.

Definition is_not_None {A} (o : option A) : bool :=
  match o with
  | Some _ => true
  | None => false
  end.

(** [s or d] on strings: the empty string is falsy. *)
Definition str_or (s d : string) : string :=
  match s with
  | EmptyString => d
  | _ => s
  end.

(** Outcome of a call into the BLE stack wrapped in [try/except OSError]. *)
Inductive outcome := Returned | RaisedOSError.

(** ** Slices

    [l[start:stop]] for integer bounds, with Python's treatment of negative
    and out-of-range indices: a negative index counts from the end, and
    every index is clamped to [0 .. len l]. *)

Definition slice_index (len i : Z) : Z :=
  if i <? 0 then Z.max 0 (i + len) else Z.min i len.

Definition slice {A} (l : list A) (start stop : Z) : list A :=
  let n := Z.of_nat (List.length l) in
  let a := slice_index n start in
  let b := slice_index n stop in
  take (Z.to_nat (b - a)) (drop (Z.to_nat a) l).

(** [l[start:]] *)
Definition slice_from {A} (l : list A) (start : Z) : list A :=
  slice l start (Z.of_nat (List.length l)).

(** ** The Central *)

Module Central.

Definition _TARGET_PERIPHERAL_NAME : string := "ID000001".
Definition _NBCHAR : nat := 8.
Definition _T_WAIT : Z := 100.

Definition _ADV_IND : Z := 0x00.
Definition _ADV_DIRECT_IND : Z := 0x01.

Definition _UART_SERVICE_UUID : uuid := 0x6E400001B5A3F393E0A9E50E24DCCA9E.
Definition _UART_RX_CHAR_UUID : uuid := 0x6E400002B5A3F393E0A9E50E24DCCA9E.
Definition _UART_TX_CHAR_UUID : uuid := 0x6E400003B5A3F393E0A9E50E24DCCA9E.

(** The attributes of a [BLECentral] that [_reset] initialises. *)
Record state := mkState {
  _name : option string;
  _addr_type : option Z;
  _addr : option bytes;
  _scan_callback : option callback;
  _conn_callback : option callback;
  _read_callback : option callback;
  _notify_callback : option callback;
  _conn_handle : option Z;
  _start_handle : option Z;
  _end_handle : option Z;
  _tx_handle : option Z;
  _rx_handle : option Z
}.

(** The events [_irq] dispatches on, each with its [data] tuple.
    [OtherEvent] stands for every event code without a branch. *)
Inductive event :=
| IRQ_SCAN_RESULT (addr_type : Z) (addr : bytes) (adv_type rssi : Z) (adv_data : bytes)
| IRQ_SCAN_DONE
| IRQ_PERIPHERAL_CONNECT (conn_handle addr_type : Z) (addr : bytes)
| IRQ_PERIPHERAL_DISCONNECT (conn_handle addr_type : Z) (addr : bytes)
| IRQ_GATTC_SERVICE_RESULT (conn_handle start_handle end_handle : Z) (u : uuid)
| IRQ_GATTC_SERVICE_DONE
| IRQ_GATTC_CHARACTERISTIC_RESULT (conn_handle def_handle value_handle properties : Z) (u : uuid)
| IRQ_GATTC_CHARACTERISTIC_DONE
| IRQ_GATTC_WRITE_DONE (conn_handle value_handle status : Z)
| IRQ_GATTC_NOTIFY (conn_handle value_handle : Z) (notify_data : bytes)
| IRQ_MTU_EXCHANGED
| OtherEvent (code : Z).

(** The messages the class prints, with the values they are formatted from. *)
Inductive message :=
| MsgScanSuccess
| MsgScanFailure
| MsgConnected (addr : bytes)
| MsgDisconnected (addr : bytes)
| MsgServiceUnreachable
| MsgRxNotDiscoverable
| MsgWritingRxDone
| MsgMtu
| MsgDisconnectedSuccess.

(** What a method does besides updating the attributes.  A call into the
    BLE stack carries the attribute values it is given, [None] included. *)
Inductive action :=
| gap_scan_None
| gap_scan (duration_ms interval_us window_us : Z) (active : bool)
| gap_connect (addr_type : option Z) (addr : option bytes)
| gap_disconnect (conn_handle : option Z)
| gattc_exchange_mtu (conn_handle : option Z)
| gattc_discover_services (conn_handle : option Z)
| gattc_discover_characteristics (conn_handle start_handle end_handle : option Z)
| gattc_write (conn_handle rx_handle : option Z) (v : bytes) (mode : Z)
| call_scan_callback (cb : callback) (addr_type : option Z) (addr : option bytes) (name : option string)
| call_conn_callback (cb : callback)
| call_notify_callback (cb : callback) (notify_data : bytes)
| print (m : message).

(** [try: c; after  except OSError: pass] *)
Definition try_call (o : outcome) (c : action) (after : list action) : list action :=
  c :: match o with
       | Returned => after
       | RaisedOSError => []
       end.

Definition _reset (self : state) : state :=
  {| _name := None; _addr_type := None; _addr := None;
     _scan_callback := None; _conn_callback := None; _read_callback := None;
     _notify_callback := None;
     _conn_handle := None; _start_handle := None; _end_handle := None;
     _tx_handle := None; _rx_handle := None |}.

(** The state [__init__] leaves behind. *)
Definition init : state :=
  mkState None None None None None None None None None None None None.

Definition set_name (v : option string) (s : state) : state :=
  mkState v (_addr_type s) (_addr s) (_scan_callback s) (_conn_callback s)
    (_read_callback s) (_notify_callback s) (_conn_handle s)
    (_start_handle s) (_end_handle s) (_tx_handle s) (_rx_handle s).

Definition set_addr_type (v : option Z) (s : state) : state :=
  mkState (_name s) v (_addr s) (_scan_callback s) (_conn_callback s)
    (_read_callback s) (_notify_callback s) (_conn_handle s)
    (_start_handle s) (_end_handle s) (_tx_handle s) (_rx_handle s).

Definition set_addr (v : option bytes) (s : state) : state :=
  mkState (_name s) (_addr_type s) v (_scan_callback s) (_conn_callback s)
    (_read_callback s) (_notify_callback s) (_conn_handle s)
    (_start_handle s) (_end_handle s) (_tx_handle s) (_rx_handle s).

Definition set_scan_callback (v : option callback) (s : state) : state :=
  mkState (_name s) (_addr_type s) (_addr s) v (_conn_callback s)
    (_read_callback s) (_notify_callback s) (_conn_handle s)
    (_start_handle s) (_end_handle s) (_tx_handle s) (_rx_handle s).

Definition set_conn_callback (v : option callback) (s : state) : state :=
  mkState (_name s) (_addr_type s) (_addr s) (_scan_callback s) v
    (_read_callback s) (_notify_callback s) (_conn_handle s)
    (_start_handle s) (_end_handle s) (_tx_handle s) (_rx_handle s).

Definition set_notify_callback (v : option callback) (s : state) : state :=
  mkState (_name s) (_addr_type s) (_addr s) (_scan_callback s) (_conn_callback s)
    (_read_callback s) v (_conn_handle s)
    (_start_handle s) (_end_handle s) (_tx_handle s) (_rx_handle s).

Definition set_conn_handle (v : option Z) (s : state) : state :=
  mkState (_name s) (_addr_type s) (_addr s) (_scan_callback s) (_conn_callback s)
    (_read_callback s) (_notify_callback s) v
    (_start_handle s) (_end_handle s) (_tx_handle s) (_rx_handle s).

Definition set_span (a b : option Z) (s : state) : state :=
  mkState (_name s) (_addr_type s) (_addr s) (_scan_callback s) (_conn_callback s)
    (_read_callback s) (_notify_callback s) (_conn_handle s)
    a b (_tx_handle s) (_rx_handle s).

Definition set_tx_handle (v : option Z) (s : state) : state :=
  mkState (_name s) (_addr_type s) (_addr s) (_scan_callback s) (_conn_callback s)
    (_read_callback s) (_notify_callback s) (_conn_handle s)
    (_start_handle s) (_end_handle s) v (_rx_handle s).

Definition set_rx_handle (v : option Z) (s : state) : state :=
  mkState (_name s) (_addr_type s) (_addr s) (_scan_callback s) (_conn_callback s)
    (_read_callback s) (_notify_callback s) (_conn_handle s)
    (_start_handle s) (_end_handle s) (_tx_handle s) v.

Section Irq.

(** The advertising-payload codec ([ble_advertising]) is a collaborator
    outside the two source files. *)
Variable decode_services : bytes -> list uuid.
Variable decode_name : bytes -> string.

Definition _irq (self : state) (ev : event) : state * list action :=
  match ev with
  | IRQ_SCAN_RESULT addr_type addr adv_type rssi adv_data =>
      if (bool_decide (adv_type = _ADV_IND) || bool_decide (adv_type = _ADV_DIRECT_IND))
         && bool_decide (_UART_SERVICE_UUID ∈ decode_services adv_data)
      then
        let name := str_or (decode_name adv_data) "?" in
        let self := set_name (Some name) self in
        if bool_decide (substring 0 _NBCHAR name
                        = substring 0 _NBCHAR _TARGET_PERIPHERAL_NAME)
        then
          let self := set_addr_type (Some addr_type) self in
          let self := set_addr (Some addr) self in
          let self := set_name (Some (str_or (decode_name adv_data) "?")) self in
          (self, [gap_scan_None])
        else (self, [])
      else (self, [])
  | IRQ_SCAN_DONE =>
      match _scan_callback self with
      | Some cb =>
          if truthy_bytes (_addr self)
          then (set_scan_callback None self,
                [call_scan_callback cb (_addr_type self) (_addr self) (_name self);
                 print MsgScanSuccess])
          else (self,
                [call_scan_callback cb None None None; print MsgScanFailure])
      | None => (self, [])
      end
  | IRQ_PERIPHERAL_CONNECT conn_handle addr_type addr =>
      if bool_decide (Some addr_type = _addr_type self)
         && bool_decide (Some addr = _addr self)
      then
        let self := set_conn_handle (Some conn_handle) self in
        (self,
         [gattc_exchange_mtu (_conn_handle self);
          gattc_discover_services (_conn_handle self);
          print (MsgConnected addr)])
      else (self, [print (MsgConnected addr)])
  | IRQ_PERIPHERAL_DISCONNECT conn_handle addr_type addr =>
      if bool_decide (Some conn_handle = _conn_handle self)
      then (_reset self, [print (MsgDisconnected addr)])
      else (self, [print (MsgDisconnected addr)])
  | IRQ_GATTC_SERVICE_RESULT conn_handle start_handle end_handle u =>
      if bool_decide (Some conn_handle = _conn_handle self)
         && bool_decide (u = _UART_SERVICE_UUID)
      then (set_span (Some start_handle) (Some end_handle) self, [])
      else (self, [])
  | IRQ_GATTC_SERVICE_DONE =>
      if truthy_int (_start_handle self) && truthy_int (_end_handle self)
      then (self,
            [gattc_discover_characteristics
               (_conn_handle self) (_start_handle self) (_end_handle self)])
      else (self, [print MsgServiceUnreachable])
  | IRQ_GATTC_CHARACTERISTIC_RESULT conn_handle def_handle value_handle properties u =>
      let self :=
        if bool_decide (Some conn_handle = _conn_handle self)
           && bool_decide (u = _UART_RX_CHAR_UUID)
        then set_rx_handle (Some value_handle) self else self in
      let self :=
        if bool_decide (Some conn_handle = _conn_handle self)
           && bool_decide (u = _UART_TX_CHAR_UUID)
        then set_tx_handle (Some value_handle) self else self in
      (self, [])
  | IRQ_GATTC_CHARACTERISTIC_DONE =>
      if is_not_None (_tx_handle self) && is_not_None (_rx_handle self)
      then match _conn_callback self with
           | Some cb => (self, [call_conn_callback cb])
           | None => (self, [])
           end
      else (self, [print MsgRxNotDiscoverable])
  | IRQ_GATTC_WRITE_DONE conn_handle value_handle status =>
      (self, [print MsgWritingRxDone])
  | IRQ_GATTC_NOTIFY conn_handle value_handle notify_data =>
      if bool_decide (Some conn_handle = _conn_handle self)
         && bool_decide (Some value_handle = _tx_handle self)
      then match _notify_callback self with
           | Some cb => (self, [call_notify_callback cb notify_data])
           | None => (self, [])
           end
      else (self, [])
  | IRQ_MTU_EXCHANGED => (self, [print MsgMtu])
  | OtherEvent _ => (self, [])
  end.

(** Events are delivered one at a time, each handler running to its end. *)
Fixpoint deliver (self : state) (evs : list event) : state * list action :=
  match evs with
  | [] => (self, [])
  | ev :: evs =>
      let '(self, t1) := _irq self ev in
      let '(self, t2) := deliver self evs in
      (self, t1 ++ t2)
  end.

End Irq.

Definition is_connected (self : state) : bool :=
  is_not_None (_conn_handle self)
  && is_not_None (_tx_handle self)
  && is_not_None (_rx_handle self).

Definition scan (self : state) (cb : option callback) (o : outcome)
  : state * list action :=
  let self := set_addr_type None self in
  let self := set_addr None self in
  let self := set_scan_callback cb self in
  (self, try_call o (gap_scan 2000 30000 30000 true) []).

(** Returns the new state, the boolean result and the trace. *)
Definition connect (self : state) (addr_type : option Z) (addr : option bytes)
    (cb : option callback) (o : outcome) : state * bool * list action :=
  let self :=
    match addr_type, addr with
    | Some t, Some a => set_addr (Some a) (set_addr_type (Some t) self)
    | _, _ => self
    end in
  let self := set_conn_callback cb self in
  if negb (is_not_None (_addr_type self)) || negb (is_not_None (_addr self))
  then (self, false, [])
  else (self, true, try_call o (gap_connect (_addr_type self) (_addr self)) []).

Definition disconnect (self : state) (o : outcome) : state * list action :=
  if negb (truthy_int (_conn_handle self))
  then (self, [])
  else
    (_reset self,
     try_call o (gap_disconnect (_conn_handle self)) [print MsgDisconnectedSuccess]).

Definition on_notify (self : state) (cb : option callback) : state :=
  set_notify_callback cb self.

(** [write]: the trace only; the attributes are not touched.  The
    module-level flag [Central_ACK_required] that it clears lives outside
    the object and is not part of [state]. *)
Definition write (self : state) (v : bytes) (response : bool) : list action :=
  if negb (is_connected self) then []
  else [gattc_write (_conn_handle self) (_rx_handle self) v
          (if response then 1 else 0)].

(** *** [wait_for_connection]

    [ticks_ms] is the sequence of readings of the millisecond clock that the
    method takes: reading [0] is [t0], reading [k+1] is the one in the loop
    test after [k] calls of [sleep_ms(_T_WAIT)].  [fuel] bounds the number
    of loop tests; [None] means the bound was reached.

    [time.ticks_ms] and [time.ticks_diff] belong to MicroPython, not to
    the repository.  The counter wraps around after [_TICKS_PERIOD]
    milliseconds, and [ticks_diff] is the difference on that ring, a
    signed value from minus half the period up to, not including, half
    the period. *)

Definition _TICKS_PERIOD : Z := 2 ^ 30.

Definition ticks_diff (a b : Z) : Z :=
  (a - b + _TICKS_PERIOD / 2) mod _TICKS_PERIOD - _TICKS_PERIOD / 2.

Fixpoint wait_loop (fuel : nat) (ticks_ms : nat -> Z) (k : nat) (t0 timeout_ms : Z)
  : option bool :=
  match fuel with
  | O => None
  | S fuel' =>
      if ticks_diff (ticks_ms k) t0 <? timeout_ms
      then wait_loop fuel' ticks_ms (S k) t0 timeout_ms
      else Some false
  end.

Definition wait_for_connection (fuel : nat) (ticks_ms : nat -> Z)
    (self : state) (status : bool) (timeout_ms : Z) : option bool :=
  let t0 := ticks_ms O in
  wait_loop fuel ticks_ms 1%nat t0 timeout_ms.

(** A clock on which every [sleep_ms(_T_WAIT)] takes exactly [_T_WAIT]
    and nothing else takes time. *)
Definition steady_clock (start : Z) (k : nat) : Z :=
  start + _T_WAIT * Z.of_nat (Nat.pred k).

(** The same clock as the counter shows it, wrapping around. *)
Definition wrapping_clock (start : Z) (k : nat) : Z :=
  steady_clock start k mod _TICKS_PERIOD.

(** An attribute handle of the GATT protocol: [0x0000] is reserved. *)
Definition attribute_handle (h : Z) : Prop := 1 <= h <= 0xFFFF.

(** Every start or end handle the object holds is an attribute handle. *)
Definition span_well_formed (self : state) : Prop :=
  (forall h, _start_handle self = Some h -> attribute_handle h)
  /\ (forall h, _end_handle self = Some h -> attribute_handle h).

(** Events whose service span is made of attribute handles. *)
Definition event_well_formed (ev : event) : Prop :=
  match ev with
  | IRQ_GATTC_SERVICE_RESULT _ s e _ => attribute_handle s /\ attribute_handle e
  | _ => True
  end.

(** Sample objects.  [peer_address] is the first entry of [peripherals]. *)
Definition peer_address : bytes :=
  [x02; x05; x82; x06; x35; x9e]%byte.

(** A codec for the examples: every payload reads as the advertisement of
    the target, name and UART service. *)
Definition target_services (adv_data : bytes) : list uuid := [_UART_SERVICE_UUID].
Definition target_name (adv_data : bytes) : string := _TARGET_PERIPHERAL_NAME.

(** After a scan that found the peer: identity cached, no session. *)
Definition found_peer : state :=
  mkState (Some "ID000001"%string) (Some 0) (Some peer_address)
    None None None None None None None None None.

(** Connected, span [1..9] known, both characteristics resolved, ready
    callback [7] registered; the session handle is a parameter. *)
Definition discovered (conn_handle : Z) : state :=
  mkState (Some "ID000001"%string) (Some 0) (Some peer_address)
    None (Some 7%nat) None None (Some conn_handle) (Some 1) (Some 9) (Some 3) (Some 5).

End Central.

(** ** The Peripheral *)

Module Peripheral.

Definition _MAX_NB_BYTES : Z := 128.

(** The attributes of a [BLEperipheral].  [_connections] is a Python [set]
    of connection handles, [_rx_buffer] a [bytearray]. *)
Record state := mkState {
  _tx_handle : Z;
  _rx_handle : Z;
  _connections : gset Z;
  _rx_buffer : bytes;
  _handler : option callback;
  _payload : bytes
}.

Inductive event :=
| IRQ_CENTRAL_CONNECT (conn_handle addr_type : Z) (addr : bytes)
| IRQ_CENTRAL_DISCONNECT (conn_handle addr_type : Z) (addr : bytes)
| IRQ_GATTS_WRITE (conn_handle value_handle : Z)
| IRQ_MTU_EXCHANGED
| OtherEvent (code : Z).

Inductive message :=
| MsgNewConnection (conn_handle : Z)
| MsgDisconnected (conn_handle : Z)
| MsgMtu.

Inductive action :=
| gap_advertise (interval_us : Z) (adv_data : bytes) (connectable : bool)
| gatts_notify (conn_handle tx_handle : Z) (data : bytes)
| gap_disconnect (conn_handle : Z)
| call_handler (cb : callback)
| print (m : message).

Definition set_connections (v : gset Z) (s : state) : state :=
  mkState (_tx_handle s) (_rx_handle s) v (_rx_buffer s) (_handler s) (_payload s).

Definition set_rx_buffer (v : bytes) (s : state) : state :=
  mkState (_tx_handle s) (_rx_handle s) (_connections s) v (_handler s) (_payload s).

Definition set_handler (v : option callback) (s : state) : state :=
  mkState (_tx_handle s) (_rx_handle s) (_connections s) (_rx_buffer s) v (_payload s).

(** The attributes after [__init__], for the handles the stack returned
    from [gatts_register_services] and the advertising payload built by
    the codec. *)
Definition init (tx rx : Z) (payload : bytes) : state :=
  mkState tx rx ∅ [] None payload.

Definition irq (self : state) (handler : option callback) : state :=
  set_handler handler self.

Definition _advertise (self : state) (interval_us : Z) : list action :=
  [gap_advertise interval_us (_payload self) true].

(** [gatts_read] is the value the stack currently holds for a handle. *)
Definition _irq (gatts_read : Z -> bytes) (self : state) (ev : event)
  : state * list action :=
  match ev with
  | IRQ_CENTRAL_CONNECT conn_handle _ _ =>
      (set_connections ({[conn_handle]} ∪ _connections self) self,
       [print (MsgNewConnection conn_handle)])
  | IRQ_CENTRAL_DISCONNECT conn_handle _ _ =>
      let self' :=
        if bool_decide (conn_handle ∈ _connections self)
        then set_connections (_connections self ∖ {[conn_handle]}) self
        else self in
      (self', print (MsgDisconnected conn_handle) :: _advertise self' 500000)
  | IRQ_GATTS_WRITE conn_handle value_handle =>
      if bool_decide (conn_handle ∈ _connections self)
         && bool_decide (value_handle = _rx_handle self)
      then
        let self := set_rx_buffer (_rx_buffer self ++ gatts_read (_rx_handle self)) self in
        (self,
         match _handler self with
         | Some cb => [call_handler cb]
         | None => []
         end)
      else (self, [])
  | IRQ_MTU_EXCHANGED => (self, [print MsgMtu])
  | OtherEvent _ => (self, [])
  end.

Definition any (self : state) : Z := Z.of_nat (List.length (_rx_buffer self)).

(** [read(sz)]: [sz] is [None] when the argument is left out. *)
Definition read (self : state) (sz : option Z) : state * bytes :=
  let sz := if negb (truthy_int sz)
            then Z.of_nat (List.length (_rx_buffer self))
            else default 0 sz in
  let result := slice (_rx_buffer self) 0 sz in
  (set_rx_buffer (slice_from (_rx_buffer self) sz) self, result).

(** The loop runs over the set in some order: [elements]. *)
Definition write (self : state) (data : bytes) : state * list action :=
  (self, (fun conn_handle => gatts_notify conn_handle (_tx_handle self) data)
           <$> elements (_connections self)).

Definition close (self : state) : state * list action :=
  (set_connections ∅ self, gap_disconnect <$> elements (_connections self)).

Definition is_connected (self : state) : bool :=
  bool_decide (0 < Z.of_nat (size (_connections self))).

(** Sample objects: a Peripheral with one session (handle [1]), and the same
    with ["abcd"] queued. *)
Definition one_session : state :=
  mkState 11 12 {[ 1 ]} [] None [].

Definition holding_abcd : state :=
  set_rx_buffer (list_byte_of_string "abcd") one_session.

End Peripheral.

(** ** Using the Central

    What happens to a [BLECentral] is a sequence of uses: the stack
    delivers an event to [_irq], or the application calls a method. *)

Module CentralOps.
Import Central.

Inductive use :=
| Event (ev : event)
| Scan (cb : option callback) (o : outcome)
| Connect (addr_type : option Z) (addr : option bytes) (cb : option callback) (o : outcome)
| Disconnect (o : outcome)
| OnNotify (cb : option callback)
| Write (v : bytes) (response : bool)
| Reset.

Section Run.

Variable decode_services : bytes -> list uuid.
Variable decode_name : bytes -> string.

Definition perform (self : state) (u : use) : state * list action :=
  match u with
  | Event ev => _irq decode_services decode_name self ev
  | Scan cb o => scan self cb o
  | Connect addr_type addr cb o =>
      let '(self, _, t) := connect self addr_type addr cb o in (self, t)
  | Disconnect o => disconnect self o
  | OnNotify cb => (on_notify self cb, [])
  | Write v response => (self, write self v response)
  | Reset => (_reset self, [])
  end.

Fixpoint run (self : state) (us : list use) : state * list action :=
  match us with
  | [] => (self, [])
  | u :: us =>
      let '(self, t1) := perform self u in
      let '(self, t2) := run self us in
      (self, t1 ++ t2)
  end.

(** An advertisement that the scan-result branch takes for the target:
    connectable, declaring the UART service, and carrying a name that
    starts with the target name. *)
Definition advertises_target (adv_type : Z) (adv_data : bytes) : Prop :=
  (adv_type = _ADV_IND \/ adv_type = _ADV_DIRECT_IND)
  /\ _UART_SERVICE_UUID ∈ decode_services adv_data
  /\ exists rest, decode_name adv_data = (_TARGET_PERIPHERAL_NAME ++ rest)%string.

(** A scan-result event for anything but the target. *)
Definition result_of_other (ev : event) : Prop :=
  match ev with
  | IRQ_SCAN_RESULT _ _ adv_type _ adv_data => ~ advertises_target adv_type adv_data
  | _ => False
  end.

End Run.

(** Discovery results belong to a session: without a session handle the
    object holds no span and no characteristic handle. *)
Definition session_consistent (self : state) : Prop :=
  _conn_handle self = None ->
  _start_handle self = None /\ _end_handle self = None
  /\ _tx_handle self = None /\ _rx_handle self = None.

(** A session on handle [64] right after the connect event. *)
Definition connected_only : state :=
  set_conn_handle (Some 64) found_peer.

End CentralOps.

(** ** Using the Peripheral *)

Module PeripheralOps.
Import Peripheral.

(** A run of events, each with the value the stack holds for the RX
    characteristic when the event is handled. *)
Fixpoint deliver (self : state) (evs : list (event * bytes)) : state * list action :=
  match evs with
  | [] => (self, [])
  | (ev, held) :: evs =>
      let '(self, t1) := _irq (fun _ => held) self ev in
      let '(self, t2) := deliver self evs in
      (self, t1 ++ t2)
  end.

(** Inbound writes of the given values by session [c] to handle [h]. *)
Definition writes_by (c h : Z) (values : list bytes) : list (event * bytes) :=
  (fun v => (IRQ_GATTS_WRITE c h, v)) <$> values.

(** Sessions [1], [2] and [3] registered, handler [4] set. *)
Definition three_sessions : state :=
  mkState 11 12 {[ 1; 2; 3 ]} [] (Some 4%nat) [].

End PeripheralOps.

(** ** The LED of the Peripheral board

    [change_led_state(lux)] of [BLEUartPeripheral.py], for an integer
    illuminance.  The result is the returned value ([None] when the
    function falls off its end) and what it asks of LED 3. *)

Module Led.

Inductive action :=
| led_on
| led_off
| led_intensity (v : Z)
| print_error.

Definition change_led_state (lux : Z) : option bool * list action :=
  if lux <? 50 then
    (Some true,
     led_on ::
       (if lux <? 10 then [led_intensity 255]
        else if (10 <=? lux) && (lux <? 20) then [led_intensity 180]
        else if (20 <=? lux) && (lux <? 30) then [led_intensity 120]
        else if (30 <=? lux) && (lux <? 40) then [led_intensity 60]
        else []))
  else if 40 <=? lux then (Some false, [led_off])
  else (None, [print_error]).

End Led.

(** * Properties *)

(** ** Slices *)

Section Slices.
Context {A : Type}.
Implicit Types l : list A.

Lemma slice_index_range len i :
  0 <= len -> 0 <= slice_index len i <= len.
Proof. unfold slice_index. destruct (i <? 0) eqn:E; lia. Qed.

Lemma slice_index_len len : 0 <= len -> slice_index len len = len.
Proof. unfold slice_index. intros H. destruct (len <? 0) eqn:E; lia. Qed.

(** [l[0:i]] is the prefix up to the normalised index. *)
Lemma slice_0 l i :
  slice l 0 i = take (Z.to_nat (slice_index (Z.of_nat (List.length l)) i)) l.
Proof.
  unfold slice. cbn zeta.
  assert (H0 : slice_index (Z.of_nat (List.length l)) 0 = 0).
  { unfold slice_index. simpl. lia. }
  rewrite H0. simpl. f_equal. lia.
Qed.

(** [l[i:]] is what is left after that prefix. *)
Lemma slice_from_drop l i :
  slice_from l i = drop (Z.to_nat (slice_index (Z.of_nat (List.length l)) i)) l.
Proof.
  unfold slice_from, slice. cbn zeta.
  pose proof (slice_index_range (Z.of_nat (List.length l)) i ltac:(lia)) as Hr.
  rewrite slice_index_len by lia.
  apply take_ge. rewrite length_drop. lia.
Qed.

Lemma slice_split l i : slice l 0 i ++ slice_from l i = l.
Proof. rewrite slice_0, slice_from_drop. apply take_drop. Qed.

Lemma slice_0_nonneg l i :
  0 <= i -> slice l 0 i = take (Z.to_nat i) l.
Proof.
  intros Hi. rewrite slice_0. unfold slice_index.
  destruct (i <? 0) eqn:E; [lia|].
  destruct (Z.le_gt_cases i (Z.of_nat (List.length l))) as [Hle|Hgt].
  - f_equal. lia.
  - rewrite !take_ge; [done | lia | lia].
Qed.

Lemma slice_from_nonneg l i :
  0 <= i -> slice_from l i = drop (Z.to_nat i) l.
Proof.
  intros Hi. rewrite slice_from_drop. unfold slice_index.
  destruct (i <? 0) eqn:E; [lia|].
  destruct (Z.le_gt_cases i (Z.of_nat (List.length l))) as [Hle|Hgt].
  - f_equal. lia.
  - rewrite !drop_ge; [done | lia | lia].
Qed.

End Slices.

(** ** Peripheral: message buffer and notification fan-out *)

Module PeripheralFacts.
Import Peripheral.

Lemma read_unspecified self :
  read self None = (set_rx_buffer [] self, _rx_buffer self).
Proof.
  unfold read. simpl.
  rewrite slice_0_nonneg, slice_from_nonneg by lia.
  rewrite Nat2Z.id, take_ge, drop_ge by lia. done.
Qed.

Lemma read_zero self :
  read self (Some 0) = (set_rx_buffer [] self, _rx_buffer self).
Proof. exact (read_unspecified self). Qed.

Lemma read_positive self sz :
  0 < sz ->
  read self (Some sz)
  = (set_rx_buffer (drop (Z.to_nat sz) (_rx_buffer self)) self,
     take (Z.to_nat sz) (_rx_buffer self)).
Proof.
  intros Hsz. unfold read. simpl.
  destruct (sz =? 0) eqn:E; [lia|]. simpl.
  by rewrite slice_0_nonneg, slice_from_nonneg by lia.
Qed.

(** Whatever is asked for, the bytes handed out followed by the bytes kept
    are the old buffer. *)
Lemma read_split self sz :
  snd (read self sz) ++ _rx_buffer (fst (read self sz)) = _rx_buffer self.
Proof. unfold read. simpl. apply slice_split. Qed.

Lemma read_only_buffer self sz :
  fst (read self sz) = set_rx_buffer (_rx_buffer (fst (read self sz))) self.
Proof. reflexivity. Qed.

Lemma irq_write_appends gatts_read self c :
  c ∈ _connections self ->
  _irq gatts_read self (IRQ_GATTS_WRITE c (_rx_handle self))
  = (set_rx_buffer (_rx_buffer self ++ gatts_read (_rx_handle self)) self,
     match _handler self with Some cb => [call_handler cb] | None => [] end).
Proof.
  intros Hc. unfold _irq.
  rewrite !bool_decide_eq_true_2 by done. done.
Qed.

(** No event takes bytes out of the buffer or moves them. *)
Lemma irq_extends_buffer gatts_read self ev :
  exists suffix,
    _rx_buffer (fst (_irq gatts_read self ev)) = _rx_buffer self ++ suffix.
Proof.
  destruct ev; simpl.
  - exists []. by rewrite app_nil_r.
  - exists []. rewrite app_nil_r. by case_bool_decide.
  - destruct (bool_decide _ && bool_decide _); simpl.
    + by eexists.
    + exists []. by rewrite app_nil_r.
  - exists []. by rewrite app_nil_r.
  - exists []. by rewrite app_nil_r.
Qed.

Lemma no_notify_from_irq gatts_read self ev c h d :
  gatts_notify c h d ∉ snd (_irq gatts_read self ev).
Proof.
  destruct ev; simpl; unfold _advertise;
    try destruct (bool_decide _ && bool_decide _); simpl;
    try destruct (_handler self);
    intros H; repeat (apply elem_of_cons in H as [H|H]; [discriminate H|]);
    by apply elem_of_nil in H.
Qed.

(** C2 (as amended): the buffer is first-in first-out and [read] consumes a
    prefix.  Two inbound writes from a registered session, one after the
    other, leave the old buffer followed by the first and then the second
    value.  For every requested length [sz >= 1], [read(sz)] returns the
    first [min(sz, len)] bytes and keeps the rest; with the size left out,
    or [0], it returns the whole buffer and leaves it empty.  For every
    argument, negative ones included, the returned bytes followed by the
    kept bytes are the old buffer, and [read] changes no other attribute.
    Events only ever append; [write], [close] and [irq] do not touch the
    buffer. *)
Theorem read_consumes_prefix (self : state) (sz : Z) (Hsz : 0 < sz) :
  read self (Some sz)
  = (set_rx_buffer (drop (Z.to_nat sz) (_rx_buffer self)) self,
     take (Z.to_nat sz) (_rx_buffer self))
  /\ Z.of_nat (List.length (snd (read self (Some sz))))
     = Z.min sz (Z.of_nat (List.length (_rx_buffer self)))
  /\ read self None = (set_rx_buffer [] self, _rx_buffer self)
  /\ read self (Some 0) = (set_rx_buffer [] self, _rx_buffer self)
  /\ (forall o : option Z,
        snd (read self o) ++ _rx_buffer (fst (read self o)) = _rx_buffer self
        /\ fst (read self o) = set_rx_buffer (_rx_buffer (fst (read self o))) self)
  /\ (forall (first second : Z -> bytes) (c : Z),
        c ∈ _connections self ->
        let ev := IRQ_GATTS_WRITE c (_rx_handle self) in
        _rx_buffer (fst (_irq second (fst (_irq first self ev)) ev))
        = _rx_buffer self ++ first (_rx_handle self) ++ second (_rx_handle self))
  /\ (forall gatts_read ev, exists suffix,
        _rx_buffer (fst (_irq gatts_read self ev)) = _rx_buffer self ++ suffix)
  /\ (forall data, _rx_buffer (fst (write self data)) = _rx_buffer self)
  /\ _rx_buffer (fst (close self)) = _rx_buffer self
  /\ (forall handler, _rx_buffer (irq self handler) = _rx_buffer self).
Proof.
  split_and!; try done.
  - by apply read_positive.
  - rewrite read_positive by done. simpl. rewrite length_take. lia.
  - apply read_unspecified.
  - apply read_zero.
  - intros o. split; [apply read_split | apply read_only_buffer].
  - intros first second c Hc ev. subst ev.
    rewrite irq_write_appends by done. simpl.
    rewrite !bool_decide_eq_true_2 by done. simpl. by rewrite app_assoc.
  - intros. apply irq_extends_buffer.
Qed.

(** The example of the claim: ["ab"] then ["cd"] give ["abcd"], and
    [read(1)] hands out ["a"] and keeps ["bcd"]. *)
Lemma read_consumes_prefix_witness :
  (let ev := IRQ_GATTS_WRITE 1 12 in
   _rx_buffer
     (fst (_irq (fun _ => list_byte_of_string "cd")
             (fst (_irq (fun _ => list_byte_of_string "ab") one_session ev)) ev))
   = list_byte_of_string "abcd")
  /\ snd (read holding_abcd (Some 1)) = list_byte_of_string "a"
  /\ _rx_buffer (fst (read holding_abcd (Some 1))) = list_byte_of_string "bcd".
Proof.
  split.
  - pose proof (read_consumes_prefix one_session 1 ltac:(lia)) as H.
    destruct H as (_ & _ & _ & _ & _ & Hfifo & _).
    apply (Hfifo (fun _ => list_byte_of_string "ab")
                 (fun _ => list_byte_of_string "cd") 1).
    vm_compute. reflexivity.
  - pose proof (read_consumes_prefix holding_abcd 1 ltac:(lia)) as H.
    destruct H as (Hread & _). rewrite Hread. split; reflexivity.
Defined.

(** C2 (as written) fails at [sz = 0]: on the buffer ["abcd"], [read(0)]
    does not hand out the empty prefix and keep ["abcd"]; it hands out the
    whole buffer and keeps nothing. *)
Lemma read_zero_counterexample :
  read holding_abcd (Some 0)
  = (set_rx_buffer [] holding_abcd, list_byte_of_string "abcd")
  /\ ~ (snd (read holding_abcd (Some 0)) = take 0 (_rx_buffer holding_abcd)
        /\ _rx_buffer (fst (read holding_abcd (Some 0)))
           = drop 0 (_rx_buffer holding_abcd)).
Proof.
  split; [reflexivity|].
  intros [H _]. vm_compute in H. discriminate H.
Qed.

(** C9: a requested size at or beyond the buffer's length returns exactly
    the buffer, nothing more, and leaves it empty.  [read] is a total
    function: there is no error result. *)
Theorem read_beyond_length (self : state) (sz : Z)
    (Hsz : Z.of_nat (List.length (_rx_buffer self)) <= sz) :
  read self (Some sz) = (set_rx_buffer [] self, _rx_buffer self).
Proof.
  destruct (Z.eq_dec sz 0) as [->|Hne].
  - apply read_zero.
  - rewrite read_positive by lia.
    by rewrite take_ge, drop_ge by lia.
Qed.

Lemma read_beyond_length_witness :
  read holding_abcd (Some 9)
  = (set_rx_buffer [] holding_abcd, list_byte_of_string "abcd").
Proof.
  apply (read_beyond_length holding_abcd 9). vm_compute. discriminate.
Defined.

(** C4: [write(data)] asks for one notify per session of the registry as it
    is at the call, each on the TX handle and carrying [data] itself, and
    for nothing else; a handle outside the registry gets none.  The object
    is left as it was (nothing is recorded about delivery), and no event,
    a later connect included, makes the Peripheral notify. *)
Theorem write_notifies_registry (self : state) (data : bytes) :
  (forall c : Z,
     gatts_notify c (_tx_handle self) data ∈ snd (write self data)
     <-> c ∈ _connections self)
  /\ (forall a : action,
        a ∈ snd (write self data) ->
        exists c, c ∈ _connections self /\ a = gatts_notify c (_tx_handle self) data)
  /\ NoDup (snd (write self data))
  /\ List.length (snd (write self data)) = size (_connections self)
  /\ fst (write self data) = self
  /\ (forall gatts_read ev c h d,
        gatts_notify c h d ∉ snd (_irq gatts_read (fst (write self data)) ev)).
Proof.
  unfold write. simpl. repeat split.
  - intros H. apply list_elem_of_fmap in H as (c' & Heq & Hin).
    injection Heq as ->. by apply elem_of_elements in Hin.
  - intros H. apply list_elem_of_fmap. exists c. split; [done|].
    by apply elem_of_elements.
  - intros a H. apply list_elem_of_fmap in H as (c & -> & Hin).
    exists c. split; [by apply elem_of_elements in Hin | done].
  - apply NoDup_fmap_2_strong; [|apply NoDup_elements].
    intros x y _ _ Heq. by injection Heq.
  - by rewrite length_fmap.
  - intros. apply no_notify_from_irq.
Qed.

(** On [one_session]: session [1] is notified, session [2], which connects
    afterwards, is not. *)
Lemma write_notifies_registry_witness :
  let data := list_byte_of_string "23|45|120" in
  snd (write one_session data) = [gatts_notify 1 11 data]
  /\ (gatts_notify 2 11 data ∉ snd (write one_session data))
  /\ (gatts_notify 2 11 data
       ∉ snd (_irq (fun _ => []) (fst (write one_session data))
                (IRQ_CENTRAL_CONNECT 2 0 []))).
Proof.
  intros data.
  destruct (write_notifies_registry one_session data) as (Hiff & _ & _ & _ & _ & Hirq).
  split; [reflexivity|]. split.
  - intros H. apply Hiff in H. simpl in H.
    apply elem_of_singleton in H. discriminate H.
  - apply Hirq.
Defined.

End PeripheralFacts.

(** ** Central: discovery, readiness and reset *)

Module CentralFacts.
Import Central.

Lemma is_not_None_true {A} (o : option A) : is_not_None o = true <-> o <> None.
Proof. destruct o; simpl; split; congruence. Qed.

Lemma is_not_None_false {A} (o : option A) : is_not_None o = false <-> o = None.
Proof. destruct o; simpl; split; congruence. Qed.

(** Membership of an action in an explicit trace, decided by inspection. *)
Ltac trace_inv H :=
  repeat (apply elem_of_cons in H as [H|H]; [try discriminate H|]);
  try (by apply elem_of_nil in H).

Section WithCodec.

Variable decode_services : bytes -> list uuid.
Variable decode_name : bytes -> string.

Local Abbreviation irq := (_irq decode_services decode_name).

(** The ready callback is invoked from one place only. *)
Lemma conn_callback_origin self ev cb :
  call_conn_callback cb ∈ snd (irq self ev) ->
  ev = IRQ_GATTC_CHARACTERISTIC_DONE
  /\ _conn_callback self = Some cb
  /\ _tx_handle self <> None /\ _rx_handle self <> None.
Proof.
  intros H. destruct ev; simpl in H; repeat case_match; simpl in H; trace_inv H.
  injection H as ->.
  match goal with
  | E : is_not_None _ && is_not_None _ = true |- _ =>
      apply andb_prop in E as [Ht Hr]
  end.
  split_and!; [done | done | by apply is_not_None_true.. ].
Qed.

(** C1: on the characteristic-done event the registered ready callback is
    invoked if and only if both the TX and the RX value handle are set.
    No event whatever invokes a ready callback while one of the two is
    missing; in that case the done event only reports the failure, and
    the object is not connected, before and after. *)
Theorem conn_callback_iff_both_handles (self : state) (cb : callback)
    (Hcb : _conn_callback self = Some cb) :
  (call_conn_callback cb ∈ snd (irq self IRQ_GATTC_CHARACTERISTIC_DONE)
   <-> _tx_handle self <> None /\ _rx_handle self <> None)
  /\ (_tx_handle self <> None /\ _rx_handle self <> None ->
      irq self IRQ_GATTC_CHARACTERISTIC_DONE = (self, [call_conn_callback cb]))
  /\ (_tx_handle self = None \/ _rx_handle self = None ->
      irq self IRQ_GATTC_CHARACTERISTIC_DONE = (self, [print MsgRxNotDiscoverable])
      /\ is_connected self = false
      /\ forall ev cb', call_conn_callback cb' ∉ snd (irq self ev)).
Proof.
  assert (Hready : _tx_handle self <> None /\ _rx_handle self <> None ->
            irq self IRQ_GATTC_CHARACTERISTIC_DONE = (self, [call_conn_callback cb])).
  { intros [Ht Hr]. simpl.
    apply is_not_None_true in Ht, Hr. by rewrite Ht, Hr, Hcb. }
  split_and!.
  - split.
    + intros H. by apply conn_callback_origin in H as (_ & _ & Ht & Hr).
    + intros H. rewrite (Hready H). simpl. apply list_elem_of_here.
  - exact Hready.
  - intros Hmiss. split_and!.
    + simpl. destruct Hmiss as [->| ->]; simpl; [done|].
      by rewrite andb_false_r.
    + unfold is_connected. destruct Hmiss as [->| ->]; simpl;
        by rewrite ?andb_false_r.
    + intros ev cb' H. apply conn_callback_origin in H as (_ & _ & Ht & Hr).
      destruct Hmiss; congruence.
Qed.

(** Attribute handles stay attribute handles under well-formed events. *)
Lemma span_well_formed_irq self ev :
  span_well_formed self -> event_well_formed ev ->
  span_well_formed (fst (irq self ev)).
Proof.
  intros [Hs He] Hev. destruct ev; simpl in *; repeat case_match; simpl;
    try (by split).
  all: split; intros h [= <-]; apply Hev.
Qed.



(** The scan callback is invoked from one place only. *)
Lemma scan_callback_origin self ev cb t a n :
  call_scan_callback cb t a n ∈ snd (irq self ev) ->
  ev = IRQ_SCAN_DONE /\ _scan_callback self = Some cb.
Proof.
  intros H. destruct ev; simpl in H; repeat case_match; simpl in H; trace_inv H;
    by injection H as -> _ _ _.
Qed.

(** On the success path the reference is cleared once the callback has
    been called with the cached triple. *)
Lemma scan_done_success_clears_callback self cb :
  _scan_callback self = Some cb -> truthy_bytes (_addr self) = true ->
  irq self IRQ_SCAN_DONE
  = (set_scan_callback None self,
     [call_scan_callback cb (_addr_type self) (_addr self) (_name self);
      print MsgScanSuccess]).
Proof. intros Hcb Ha. simpl. by rewrite Hcb, Ha. Qed.

(** C7, the failing path.  After [scan(cb)] on any object, whatever came
    of the scan request, and no matching advertisement, the scan-done
    event calls [cb(None, None, None)] and leaves [cb] stored, so that a
    further scan-done event calls it again; on the success path (address
    cached, as in [found_peer]) the same event calls [cb] with the cached
    triple and clears the reference. *)
Theorem scan_done_timeout_keeps_callback
    (self : state) (cb : callback) (o : outcome) :
  let waiting := fst (scan self (Some cb) o) in
  irq waiting IRQ_SCAN_DONE
  = (waiting, [call_scan_callback cb None None None; print MsgScanFailure])
  /\ _scan_callback (fst (irq waiting IRQ_SCAN_DONE)) = Some cb
  /\ snd (irq (fst (irq waiting IRQ_SCAN_DONE)) IRQ_SCAN_DONE)
     = [call_scan_callback cb None None None; print MsgScanFailure]
  /\ irq (set_scan_callback (Some cb) found_peer) IRQ_SCAN_DONE
     = (found_peer,
        [call_scan_callback cb (Some 0) (Some peer_address) (Some "ID000001"%string);
         print MsgScanSuccess])
  /\ _scan_callback found_peer = None.
Proof.
  intros waiting. subst waiting. destruct o; simpl; by split_and!.
Qed.

End WithCodec.



(** On [discovered 64] the callback [7] fires; with the RX handle missing
    it does not. *)
Lemma conn_callback_iff_both_handles_witness :
  _irq (fun _ => []) (fun _ => EmptyString) (discovered 64) IRQ_GATTC_CHARACTERISTIC_DONE
  = (discovered 64, [call_conn_callback 7%nat])
  /\ _irq (fun _ => []) (fun _ => EmptyString)
       (set_rx_handle None (discovered 64)) IRQ_GATTC_CHARACTERISTIC_DONE
     = (set_rx_handle None (discovered 64), [print MsgRxNotDiscoverable]).
Proof.
  split.
  - apply (conn_callback_iff_both_handles (fun _ => []) (fun _ => EmptyString)
             (discovered 64) 7%nat eq_refl).
    split; discriminate.
  - apply (conn_callback_iff_both_handles (fun _ => []) (fun _ => EmptyString)
             (set_rx_handle None (discovered 64)) 7%nat eq_refl).
    right. reflexivity.
Defined.

(** The sample objects are states the Central goes through: a scan that
    sees the peer ends in [found_peer]; connecting and discovering the
    service and its two characteristics ends in [discovered 64] with the
    ready callback called. *)
Example scan_reaches_found_peer :
  let '(s1, t1) := scan init (Some 1%nat) Returned in
  let '(s2, t2) :=
    deliver target_services target_name s1
      [IRQ_SCAN_RESULT 0 peer_address _ADV_IND (-40) []; IRQ_SCAN_DONE] in
  s2 = found_peer
  /\ t1 ++ t2
     = [gap_scan 2000 30000 30000 true;
        gap_scan_None;
        call_scan_callback 1%nat (Some 0) (Some peer_address) (Some "ID000001"%string);
        print MsgScanSuccess].
Proof. by vm_compute. Qed.

Example session_reaches_discovered :
  let '(s1, r, t1) := connect found_peer None None (Some 7%nat) Returned in
  let '(s2, t2) :=
    deliver target_services target_name s1
      [IRQ_PERIPHERAL_CONNECT 64 0 peer_address;
       IRQ_MTU_EXCHANGED;
       IRQ_GATTC_SERVICE_RESULT 64 1 9 _UART_SERVICE_UUID;
       IRQ_GATTC_SERVICE_DONE;
       IRQ_GATTC_CHARACTERISTIC_RESULT 64 2 3 0x10 _UART_TX_CHAR_UUID;
       IRQ_GATTC_CHARACTERISTIC_RESULT 64 4 5 0x08 _UART_RX_CHAR_UUID;
       IRQ_GATTC_CHARACTERISTIC_DONE] in
  r = true
  /\ s2 = discovered 64
  /\ is_connected s2 = true
  /\ t1 ++ t2
     = [gap_connect (Some 0) (Some peer_address);
        gattc_exchange_mtu (Some 64);
        gattc_discover_services (Some 64);
        print (MsgConnected peer_address);
        print MsgMtu;
        gattc_discover_characteristics (Some 64) (Some 1) (Some 9);
        call_conn_callback 7%nat].
Proof. by vm_compute. Qed.

(** *** [scan], [connect], [disconnect] *)

Lemma reset_is_init self : _reset self = init.
Proof. reflexivity. Qed.

(** C8 (as amended): every [scan(cb)] asks the stack for the same scan,
    whatever comes of the request, after clearing the cached address and
    address type and storing [cb]; the cached name and every other
    attribute are left as they were. *)
Theorem scan_clears_address (self : state) (cb : option callback) (o : outcome) :
  snd (scan self cb o) = [gap_scan 2000 30000 30000 true]
  /\ _addr (fst (scan self cb o)) = None
  /\ _addr_type (fst (scan self cb o)) = None
  /\ _scan_callback (fst (scan self cb o)) = cb
  /\ _name (fst (scan self cb o)) = _name self
  /\ fst (scan self cb o)
     = set_scan_callback cb (set_addr None (set_addr_type None self)).
Proof. by destruct o. Qed.

(** C8 (as written) fails: the name cached by the previous scan cycle is
    still there after [scan()]. *)
Lemma scan_keeps_name_counterexample :
  _name (fst (scan found_peer None Returned)) = Some "ID000001"%string
  /\ ~ (_addr (fst (scan found_peer None Returned)) = None
        /\ _addr_type (fst (scan found_peer None Returned)) = None
        /\ _name (fst (scan found_peer None Returned)) = None).
Proof. split; [reflexivity|]. intros (_ & _ & H). discriminate H. Qed.

(** C10: a [connect] that returns [False] has stored its callback argument
    all the same, in place of the one registered before, has asked nothing
    of the stack and has changed nothing else.  It returns [False] exactly
    when no address and address type are at hand: the two arguments were
    not both given, and the cache lacks one of the two. *)
Theorem connect_failure_replaces_callback (self : state)
    (addr_type : option Z) (addr : option bytes) (cb : option callback)
    (o : outcome)
    (Hfail : snd (fst (connect self addr_type addr cb o)) = false) :
  _conn_callback (fst (fst (connect self addr_type addr cb o))) = cb
  /\ connect self addr_type addr cb o = (set_conn_callback cb self, false, [])
  /\ (addr_type = None \/ addr = None)
  /\ (_addr_type self = None \/ _addr self = None).
Proof.
  unfold connect in *.
  destruct addr_type, addr, self as [? [?|] [?|] ? ? ? ? ? ? ? ? ?];
    simpl in *; try discriminate Hfail; split_and!; auto.
Qed.

Lemma connect_failure_replaces_callback_witness :
  let registered := set_conn_callback (Some 7%nat) init in
  connect registered None None (Some 2%nat) Returned
  = (set_conn_callback (Some 2%nat) init, false, [])
  /\ _conn_callback registered = Some 7%nat.
Proof.
  intros registered. split; [|reflexivity].
  apply (connect_failure_replaces_callback registered None None (Some 2%nat) Returned).
  reflexivity.
Defined.

(** In every call, failing or not, the callback argument is stored. *)
Lemma connect_stores_callback self addr_type addr cb o :
  _conn_callback (fst (fst (connect self addr_type addr cb o))) = cb.
Proof. unfold connect. by repeat case_match. Qed.

(** C3 (as amended): for an object whose session handle is unset or
    non-zero, [is_connected()] is false after [disconnect()].  When a
    session handle is held, [disconnect()] asks the stack to disconnect it
    and every attribute has its initial unset value afterwards, whether
    the request returned or raised.  When none is held, [disconnect()]
    asks nothing and changes nothing. *)
Theorem disconnect_resets_session (self : state) (o : outcome)
    (Hnz : _conn_handle self <> Some 0) :
  is_connected (fst (disconnect self o)) = false
  /\ (forall h, _conn_handle self = Some h ->
        fst (disconnect self o) = init
        /\ snd (disconnect self o)
           = try_call o (gap_disconnect (Some h)) [print MsgDisconnectedSuccess])
  /\ (_conn_handle self = None -> disconnect self o = (self, [])).
Proof.
  unfold disconnect. destruct (_conn_handle self) as [h|] eqn:Eh; simpl.
  - assert (h <> 0) by congruence.
    destruct (h =? 0) eqn:E; [lia|]. simpl. split_and!; [done| |done].
    by intros ? [= <-].
  - unfold is_connected. rewrite Eh. by split_and!.
Qed.

Lemma disconnect_resets_session_witness :
  disconnect (discovered 64) RaisedOSError = (init, [gap_disconnect (Some 64)])
  /\ disconnect (discovered 64) Returned
     = (init, [gap_disconnect (Some 64); print MsgDisconnectedSuccess])
  /\ is_connected (discovered 64) = true.
Proof.
  assert (Hnz : _conn_handle (discovered 64) <> Some 0) by discriminate.
  split_and!; [| |reflexivity].
  - destruct (disconnect_resets_session (discovered 64) RaisedOSError Hnz)
      as (_ & H & _).
    destruct (H 64 eq_refl) as [H1 H2].
    rewrite (surjective_pairing (disconnect _ _)), H1, H2. reflexivity.
  - destruct (disconnect_resets_session (discovered 64) Returned Hnz)
      as (_ & H & _).
    destruct (H 64 eq_refl) as [H1 H2].
    rewrite (surjective_pairing (disconnect _ _)), H1, H2. reflexivity.
Defined.

(** C3 (as written) fails on an object that holds no session: a cached
    peer identity is still there after [disconnect()]. *)
Lemma disconnect_keeps_cache_counterexample :
  disconnect found_peer Returned = (found_peer, [])
  /\ fst (disconnect found_peer Returned) <> init
  /\ _addr (fst (disconnect found_peer Returned)) <> _addr init
  /\ _name (fst (disconnect found_peer Returned)) <> _name init.
Proof. split_and!; [reflexivity | discriminate..]. Qed.

(** What C3 as amended leaves out: the session handle [0] is taken for a
    missing one, so that a ready session on handle [0] stays as it is. *)
Remark disconnect_session_handle_zero (o : outcome) :
  is_connected (discovered 0) = true
  /\ disconnect (discovered 0) o = (discovered 0, [])
  /\ is_connected (fst (disconnect (discovered 0) o)) = true.
Proof. by split_and!. Qed.

(** *** [wait_for_connection] *)

Lemma wait_loop_never_true fuel ticks_ms k t0 timeout_ms :
  wait_loop fuel ticks_ms k t0 timeout_ms <> Some true.
Proof.
  revert k. induction fuel as [|fuel IH]; intros k; simpl; [done|].
  destruct (_ <? _); [apply IH | done].
Qed.

(** C5, the failing path.  [wait_for_connection] never returns [True],
    whatever the clock, the object and the arguments.  On an object that
    is not connected, [wait_for_connection(False, 3000)], whose expected
    status holds from the first instant, runs until the timeout has
    elapsed and returns [False]. *)
Theorem wait_for_connection_never_true :
  (forall fuel ticks_ms self status timeout_ms,
     wait_for_connection fuel ticks_ms self status timeout_ms <> Some true)
  /\ is_connected init = false
  /\ wait_for_connection 31 (steady_clock 0) init false 3000 = Some false
  /\ wait_for_connection 30 (steady_clock 0) init false 3000 = None.
Proof.
  split_and!; [|reflexivity|by vm_compute..].
  intros. apply wait_loop_never_true.
Qed.

End CentralFacts.

(** ** Peripheral: registry, inbound writes, draining *)

Module PeripheralExtra.
Import Peripheral PeripheralOps.

Ltac trace_inv H :=
  repeat (apply elem_of_cons in H as [H|H]; [try discriminate H|]);
  try (by apply elem_of_nil in H).

Lemma set_connections_same self : set_connections (_connections self) self = self.
Proof. by destruct self. Qed.

Lemma disconnect_event_effect gatts_read self c addr_type addr :
  _irq gatts_read self (IRQ_CENTRAL_DISCONNECT c addr_type addr)
  = (set_connections (_connections self ∖ {[c]}) self,
     [print (MsgDisconnected c); gap_advertise 500000 (_payload self) true]).
Proof.
  simpl. case_bool_decide as Hc; [done|].
  rewrite difference_disjoint_L by (by apply disjoint_singleton_r).
  by rewrite set_connections_same.
Qed.

Lemma write_event_ignored gatts_read self c h :
  c ∉ _connections self \/ h <> _rx_handle self ->
  _irq gatts_read self (IRQ_GATTS_WRITE c h) = (self, []).
Proof.
  intros [Hc|Hh]; simpl.
  - by rewrite (bool_decide_eq_false_2 _ Hc).
  - by rewrite (bool_decide_eq_false_2 _ Hh), andb_false_r.
Qed.

(** X1: a connect event adds its handle to the registry and asks nothing
    of the stack; a disconnect event leaves the registry without its
    handle, whether the handle was registered or not, and always asks the
    stack to advertise again, with the payload built at start-up.  Neither
    touches the buffer, the handler or the characteristic handles. *)
Theorem registry_tracks_sessions (gatts_read : Z -> bytes) (self : state)
    (c addr_type : Z) (addr : bytes) :
  _irq gatts_read self (IRQ_CENTRAL_CONNECT c addr_type addr)
  = (set_connections ({[c]} ∪ _connections self) self, [print (MsgNewConnection c)])
  /\ _irq gatts_read self (IRQ_CENTRAL_DISCONNECT c addr_type addr)
     = (set_connections (_connections self ∖ {[c]}) self,
        [print (MsgDisconnected c); gap_advertise 500000 (_payload self) true])
  /\ (forall c', c' ∈ _connections (fst (_irq gatts_read self (IRQ_CENTRAL_CONNECT c addr_type addr)))
                 <-> c' = c \/ c' ∈ _connections self)
  /\ (forall c', c' ∈ _connections (fst (_irq gatts_read self (IRQ_CENTRAL_DISCONNECT c addr_type addr)))
                 <-> c' <> c /\ c' ∈ _connections self)
  /\ (c ∉ _connections self ->
      fst (_irq gatts_read self (IRQ_CENTRAL_DISCONNECT c addr_type addr)) = self).
Proof.
  assert (Hd : _irq gatts_read self (IRQ_CENTRAL_DISCONNECT c addr_type addr)
               = (set_connections (_connections self ∖ {[c]}) self,
                  [print (MsgDisconnected c); gap_advertise 500000 (_payload self) true])).
  { simpl. case_bool_decide as Hc; [done|].
    rewrite difference_disjoint_L by (by apply disjoint_singleton_r).
    by rewrite set_connections_same. }
  split_and!; [done | done | | |].
  - intros c'. simpl. rewrite elem_of_union, elem_of_singleton. done.
  - intros c'. rewrite Hd. simpl.
    rewrite elem_of_difference, elem_of_singleton. tauto.
  - intros Hc. rewrite Hd. simpl.
    rewrite difference_disjoint_L by (by apply disjoint_singleton_r).
    apply set_connections_same.
Qed.

Lemma registry_tracks_sessions_witness :
  _connections (fst (_irq (fun _ => []) one_session (IRQ_CENTRAL_DISCONNECT 1 0 []))) = ∅
  /\ fst (_irq (fun _ => []) one_session (IRQ_CENTRAL_DISCONNECT 2 0 [])) = one_session.
Proof.
  split.
  - destruct (registry_tracks_sessions (fun _ => []) one_session 1 0 [])
      as (_ & -> & _). simpl. apply difference_diag_L.
  - apply (registry_tracks_sessions (fun _ => []) one_session 2 0 []).
    simpl. rewrite elem_of_singleton. lia.
Defined.

(** X2: [is_connected()] is true exactly when some session is registered,
    which is exactly when [write] notifies somebody. *)
Theorem is_connected_iff_registered (self : state) (data : bytes) :
  (is_connected self = true <-> exists c, c ∈ _connections self)
  /\ (is_connected self = true <-> snd (write self data) <> [])
  /\ (is_connected self = false <-> _connections self = ∅).
Proof.
  assert (H1 : is_connected self = true <-> exists c, c ∈ _connections self).
  { unfold is_connected. rewrite bool_decide_eq_true. split.
    - intros H. apply size_pos_elem_of. lia.
    - intros [c Hc].
      assert (size (_connections self) <> 0%nat); [|lia].
      apply size_non_empty_iff. intros He. apply He in Hc.
      by apply not_elem_of_empty in Hc. }
  split_and!; [done | |].
  - rewrite H1. unfold write. simpl. split.
    + intros [c Hc] Hnil. apply elem_of_elements in Hc.
      apply (f_equal List.length) in Hnil. rewrite length_fmap in Hnil.
      destruct (elements (_connections self)); [by apply elem_of_nil in Hc | done].
    + intros Hne. destruct (elements (_connections self)) as [|c l] eqn:E; [done|].
      exists c. apply elem_of_elements. rewrite E. apply list_elem_of_here.
  - rewrite <- not_true_iff_false, H1. split.
    + intros Hn. apply set_eq. intros c. split.
      * intros Hc. destruct Hn. by exists c.
      * intros Hc. by apply not_elem_of_empty in Hc.
    + intros -> [c Hc]. by apply not_elem_of_empty in Hc.
Qed.

(** X3: an inbound write is taken only from a registered session and only
    on the RX handle: any other write event changes nothing and calls
    nobody.  The handler is called exactly when the write is taken and a
    handler is set.  A session is shut out again as soon as its disconnect
    event has been handled. *)
Theorem inbound_write_gate (gatts_read : Z -> bytes) (self : state) (c h : Z) :
  (c ∉ _connections self \/ h <> _rx_handle self ->
   _irq gatts_read self (IRQ_GATTS_WRITE c h) = (self, []))
  /\ (forall cb, call_handler cb ∈ snd (_irq gatts_read self (IRQ_GATTS_WRITE c h))
                 <-> c ∈ _connections self /\ h = _rx_handle self
                     /\ _handler self = Some cb)
  /\ (_rx_buffer (fst (_irq gatts_read self (IRQ_GATTS_WRITE c h))) <> _rx_buffer self ->
      c ∈ _connections self /\ h = _rx_handle self)
  /\ (forall addr_type addr,
        let gone := fst (_irq gatts_read self (IRQ_CENTRAL_DISCONNECT c addr_type addr)) in
        _irq gatts_read gone (IRQ_GATTS_WRITE c h) = (gone, [])).
Proof.
  assert (Hout : forall s, c ∉ _connections s \/ h <> _rx_handle s ->
            _irq gatts_read s (IRQ_GATTS_WRITE c h) = (s, [])).
  { intros s [Hc|Hh]; simpl.
    - by rewrite (bool_decide_eq_false_2 _ Hc).
    - by rewrite (bool_decide_eq_false_2 _ Hh), andb_false_r. }
  split_and!.
  - apply Hout.
  - intros cb. simpl.
    destruct (decide (c ∈ _connections self)) as [Hc|Hc];
      destruct (decide (h = _rx_handle self)) as [Hh|Hh];
      rewrite ?(bool_decide_eq_true_2 _ Hc), ?(bool_decide_eq_false_2 _ Hc),
              ?(bool_decide_eq_true_2 _ Hh), ?(bool_decide_eq_false_2 _ Hh); simpl.
    + destruct (_handler self) as [cb'|]; split.
      * intros H. trace_inv H. by injection H as ->.
      * intros (_ & _ & [= ->]). apply list_elem_of_here.
      * intros H. trace_inv H.
      * by intros (_ & _ & ?).
    + split; [intros H; trace_inv H | by intros (_ & ? & _)].
    + split; [intros H; trace_inv H | by intros (? & _ & _)].
    + split; [intros H; trace_inv H | by intros (? & _ & _)].
  - intros Hne.
    destruct (decide (c ∈ _connections self)) as [Hc|Hc];
      destruct (decide (h = _rx_handle self)) as [Hh|Hh]; try done;
      rewrite Hout in Hne by auto; done.
  - intros addr_type addr gone. subst gone. apply Hout. left.
    rewrite disconnect_event_effect. simpl.
    rewrite elem_of_difference, elem_of_singleton. tauto.
Qed.

Lemma inbound_write_gate_witness :
  _irq (fun _ => list_byte_of_string "ab") one_session (IRQ_GATTS_WRITE 2 12)
  = (one_session, [])
  /\ _irq (fun _ => list_byte_of_string "ab") one_session (IRQ_GATTS_WRITE 1 11)
     = (one_session, []).
Proof.
  split.
  - apply (inbound_write_gate (fun _ => list_byte_of_string "ab") one_session 2 12).
    left. simpl. rewrite elem_of_singleton. lia.
  - apply (inbound_write_gate (fun _ => list_byte_of_string "ab") one_session 1 11).
    right. simpl. lia.
Defined.

(** X4: [close()] asks the stack to disconnect every registered session,
    each once, and nothing else; afterwards the registry is empty,
    [is_connected()] is false, [write] notifies nobody and no inbound
    write is taken.  The buffer, the handler and the handles stay. *)
Theorem close_disconnects_all (self : state) :
  (forall a, a ∈ snd (close self)
             <-> exists c, c ∈ _connections self /\ a = gap_disconnect c)
  /\ NoDup (snd (close self))
  /\ fst (close self) = set_connections ∅ self
  /\ is_connected (fst (close self)) = false
  /\ (forall data, snd (write (fst (close self)) data) = [])
  /\ (forall gatts_read c h,
        _irq gatts_read (fst (close self)) (IRQ_GATTS_WRITE c h) = (fst (close self), [])).
Proof.
  unfold close. simpl. split_and!.
  - intros a. rewrite list_elem_of_fmap. split.
    + intros (c & -> & Hc). exists c. by rewrite <- elem_of_elements.
    + intros (c & Hc & ->). exists c. by rewrite elem_of_elements.
  - apply NoDup_fmap_2_strong; [|apply NoDup_elements].
    intros x y _ _ Heq. by injection Heq.
  - done.
  - done.
  - intros data. unfold write. simpl. by rewrite elements_empty.
  - intros gatts_read c h.
    apply (write_event_ignored gatts_read (set_connections ∅ self) c h).
    left. apply not_elem_of_empty.
Qed.

(** X5: [any()] is the number of bytes queued: a [read] lowers it by the
    number of bytes handed out, a [read()] without size brings it to [0],
    a write that is taken raises it by the length of the value. *)
Theorem any_counts_buffer (self : state) (sz : option Z) :
  any (fst (read self sz)) = any self - Z.of_nat (List.length (snd (read self sz)))
  /\ any (fst (read self None)) = 0
  /\ (any self = 0 <-> _rx_buffer self = [])
  /\ (forall gatts_read c,
        c ∈ _connections self ->
        any (fst (_irq gatts_read self (IRQ_GATTS_WRITE c (_rx_handle self))))
        = any self + Z.of_nat (List.length (gatts_read (_rx_handle self)))).
Proof.
  split_and!.
  - pose proof (PeripheralFacts.read_split self sz) as H.
    apply (f_equal List.length) in H. rewrite List.length_app in H.
    unfold any. lia.
  - by rewrite PeripheralFacts.read_unspecified.
  - unfold any. destruct (_rx_buffer self); simpl; split; (done || lia).
  - intros gatts_read c Hc. rewrite PeripheralFacts.irq_write_appends by done.
    unfold any. simpl. rewrite List.length_app. lia.
Qed.

Lemma any_counts_buffer_witness :
  any (fst (_irq (fun _ => list_byte_of_string "abc") holding_abcd (IRQ_GATTS_WRITE 1 12)))
  = 7.
Proof.
  destruct (any_counts_buffer holding_abcd None) as (_ & _ & _ & H).
  assert (Hc : 1 ∈ _connections holding_abcd) by (by vm_compute).
  exact (H (fun _ => list_byte_of_string "abc") 1 Hc).
Defined.

(** X6: reading in pieces is reading at once: [read(a)] followed by
    [read(b)] hands out, in two pieces, what [read(a + b)] hands out, and
    leaves the same object. *)
Theorem read_chunks_compose (self : state) (a b : Z) (Ha : 0 < a) (Hb : 0 < b) :
  snd (read self (Some a)) ++ snd (read (fst (read self (Some a))) (Some b))
  = snd (read self (Some (a + b)))
  /\ fst (read (fst (read self (Some a))) (Some b)) = fst (read self (Some (a + b))).
Proof.
  rewrite (PeripheralFacts.read_positive self a) by done.
  rewrite (PeripheralFacts.read_positive self (a + b)) by lia.
  rewrite (PeripheralFacts.read_positive _ b) by done. simpl.
  rewrite take_take_drop, drop_drop.
  replace (Z.to_nat (a + b)) with (Z.to_nat a + Z.to_nat b)%nat by lia.
  done.
Qed.

Lemma read_chunks_compose_witness :
  snd (read holding_abcd (Some 1)) ++ snd (read (fst (read holding_abcd (Some 1))) (Some 2))
  = list_byte_of_string "abc".
Proof.
  destruct (read_chunks_compose holding_abcd 1 2 ltac:(lia) ltac:(lia)) as [-> _].
  reflexivity.
Defined.

(** X7: any number of inbound writes by a registered session are queued
    in the order of arrival: the buffer becomes the old buffer followed by
    the written values, one after the other; a [read()] then hands out all
    of it.  The handler, when set, is called once per write. *)
Theorem writes_append_in_order (self : state) (c : Z) (values : list bytes)
    (Hc : c ∈ _connections self) :
  let after := deliver self (writes_by c (_rx_handle self) values) in
  fst after = set_rx_buffer (_rx_buffer self ++ List.concat values) self
  /\ snd (read (fst after) None) = _rx_buffer self ++ List.concat values
  /\ snd after
     = match _handler self with
       | Some cb => replicate (List.length values) (call_handler cb)
       | None => []
       end.
Proof.
  cut (fst (deliver self (writes_by c (_rx_handle self) values))
       = set_rx_buffer (_rx_buffer self ++ List.concat values) self
       /\ snd (deliver self (writes_by c (_rx_handle self) values))
          = match _handler self with
            | Some cb => replicate (List.length values) (call_handler cb)
            | None => []
            end).
  { intros [H1 H2]. cbn zeta. split_and!; [done| |done].
    by rewrite PeripheralFacts.read_unspecified, H1. }
  revert self Hc. induction values as [|v values IH]; intros self Hc.
  - simpl. rewrite app_nil_r. split; [by destruct self | by destruct (_handler self)].
  - assert (E : deliver self (writes_by c (_rx_handle self) (v :: values))
               = let '(s2, t2) :=
                   deliver (set_rx_buffer (_rx_buffer self ++ v) self)
                     (writes_by c (_rx_handle self) values) in
                 (s2, match _handler self with
                      | Some cb => [call_handler cb]
                      | None => []
                      end ++ t2)).
    { unfold writes_by. rewrite fmap_cons. cbn [deliver].
      by rewrite PeripheralFacts.irq_write_appends. }
    rewrite E. clear E.
    set (s1 := set_rx_buffer (_rx_buffer self ++ v) self).
    destruct (IH s1 Hc) as [H1 H2].
    change (_rx_handle s1) with (_rx_handle self) in H1, H2.
    destruct (deliver s1 (writes_by c (_rx_handle self) values)) as [s2 t2].
    simpl in H1, H2. subst s2 t2. simpl.
    split; [by rewrite app_assoc | by destruct (_handler self)].
Qed.

Lemma writes_append_in_order_witness :
  _rx_buffer
    (fst (deliver one_session
            (writes_by 1 12 [list_byte_of_string "ab"; list_byte_of_string "cd";
                             list_byte_of_string "e"])))
  = list_byte_of_string "abcde".
Proof.
  assert (Hc : 1 ∈ _connections one_session) by (by vm_compute).
  destruct (writes_append_in_order one_session 1
              [list_byte_of_string "ab"; list_byte_of_string "cd";
               list_byte_of_string "e"] Hc) as (H & _).
  change (_rx_handle one_session) with 12 in H. rewrite H. reflexivity.
Defined.

End PeripheralExtra.

(** ** The LED thresholds *)

Module LedFacts.
Import Led.

Ltac in_trace :=
  repeat first
    [ apply list_elem_of_here
    | apply list_elem_of_further ].

Ltac trace_inv H :=
  repeat (apply elem_of_cons in H as [H|H]; [try discriminate H|]);
  try (by apply elem_of_nil in H).

(** X8: for every integer illuminance [change_led_state] returns a
    boolean, [True] exactly below 50 lux, and never reaches its error
    branch.  Below 50 lux it switches the LED on, from 50 lux on it
    switches it off.  It sets the intensity only below 40 lux: 255 below
    10, 180 from 10, 120 from 20, 60 from 30; from 40 to 49 lux the LED is
    switched on with whatever intensity it had. *)
Theorem change_led_state_thresholds (lux : Z) :
  fst (change_led_state lux) = Some (bool_decide (lux < 50))
  /\ (print_error ∉ snd (change_led_state lux))
  /\ (led_on ∈ snd (change_led_state lux) <-> lux < 50)
  /\ (led_off ∈ snd (change_led_state lux) <-> 50 <= lux)
  /\ (forall v, led_intensity v ∈ snd (change_led_state lux)
                <-> (lux < 10 /\ v = 255) \/ (10 <= lux < 20 /\ v = 180)
                    \/ (20 <= lux < 30 /\ v = 120) \/ (30 <= lux < 40 /\ v = 60)).
Proof.
  unfold change_led_state.
  repeat match goal with
         | |- context [?a <? ?b] => destruct (Z.ltb_spec a b); simpl
         | |- context [?a <=? ?b] => destruct (Z.leb_spec a b); simpl
         end; try lia.
  all: split_and!;
    [ by (rewrite bool_decide_eq_true_2 by lia) || by (rewrite bool_decide_eq_false_2 by lia)
    | intros H'; trace_inv H'
    | split; [intros H'; trace_inv H'; lia | intros; try lia; in_trace]
    | split; [intros H'; trace_inv H'; lia | intros; try lia; in_trace]
    | intros v; split;
      [ intros H'; trace_inv H'; injection H' as ->; lia
      | intros [[? ->]|[[? ->]|[[? ->]|[? ->]]]]; try lia; in_trace ] ].
Qed.

End LedFacts.

(** ** Central: scanning, sessions, dispatch *)

Module CentralExtra.
Import Central CentralOps.

Ltac trace_inv H :=
  repeat (apply elem_of_cons in H as [H|H]; [try discriminate H|]);
  try (by apply elem_of_nil in H).

(** The first [length p] characters of [s] are [p] exactly when [s]
    starts with [p]. *)
Lemma substring_prefix (p s : string) :
  substring 0 (String.length p) s = p <-> exists rest, s = (p ++ rest)%string.
Proof.
  revert s. induction p as [|a p IH]; intros s.
  - simpl. split; [by exists s | by destruct s].
  - destruct s as [|c s]; simpl.
    + split; [done | by intros [rest ?]].
    + split.
      * intros [= -> H]. apply IH in H as [rest ->]. by exists rest.
      * intros [rest [= -> ->]]. f_equal. apply IH. by exists rest.
Qed.

Lemma name_test (n : string) :
  substring 0 _NBCHAR (str_or n "?") = substring 0 _NBCHAR _TARGET_PERIPHERAL_NAME
  <-> exists rest, n = (_TARGET_PERIPHERAL_NAME ++ rest)%string.
Proof.
  change (substring 0 _NBCHAR _TARGET_PERIPHERAL_NAME) with _TARGET_PERIPHERAL_NAME.
  change _NBCHAR with (String.length _TARGET_PERIPHERAL_NAME).
  destruct n as [|c n].
  - simpl. split; [done | by intros [rest ?]].
  - apply substring_prefix.
Qed.

Section WithCodec.

Variable decode_services : bytes -> list uuid.
Variable decode_name : bytes -> string.

Local Abbreviation irq := (_irq decode_services decode_name).
Local Abbreviation deliver := (Central.deliver decode_services decode_name).
Local Abbreviation target := (advertises_target decode_services decode_name).
Local Abbreviation other := (result_of_other decode_services decode_name).

Lemma deliver_app self evs1 evs2 :
  deliver self (evs1 ++ evs2)
  = let '(s1, t1) := deliver self evs1 in
    let '(s2, t2) := deliver s1 evs2 in
    (s2, t1 ++ t2).
Proof.
  revert self. induction evs1 as [|ev evs1 IH]; intros self; simpl.
  - by destruct (deliver self evs2).
  - destruct (irq self ev) as [s0 t0]. rewrite IH.
    destruct (deliver s0 evs1) as [s1 t1].
    destruct (deliver s1 evs2) as [s2 t2]. by rewrite app_assoc.
Qed.

Lemma scan_result_target self addr_type addr adv_type rssi adv_data :
  target adv_type adv_data ->
  irq self (IRQ_SCAN_RESULT addr_type addr adv_type rssi adv_data)
  = (set_name (Some (decode_name adv_data))
       (set_addr (Some addr) (set_addr_type (Some addr_type) self)),
     [gap_scan_None]).
Proof.
  intros (Hadv & Hsvc & Hname). simpl.
  rewrite (bool_decide_eq_true_2 _ Hsvc).
  assert (bool_decide (adv_type = _ADV_IND) || bool_decide (adv_type = _ADV_DIRECT_IND)
          = true) as ->.
  { destruct Hadv as [->| ->]; by rewrite ?orb_true_r. }
  simpl. rewrite bool_decide_eq_true_2 by (by apply name_test).
  destruct Hname as [rest Hname]. rewrite Hname. reflexivity.
Qed.

Lemma scan_result_other self addr_type addr adv_type rssi adv_data :
  ~ target adv_type adv_data ->
  snd (irq self (IRQ_SCAN_RESULT addr_type addr adv_type rssi adv_data)) = []
  /\ exists n,
       fst (irq self (IRQ_SCAN_RESULT addr_type addr adv_type rssi adv_data))
       = set_name n self.
Proof.
  intros Hno. simpl.
  destruct (bool_decide (adv_type = _ADV_IND) || bool_decide (adv_type = _ADV_DIRECT_IND))
    eqn:Eadv; simpl.
  2: { split; [done|]. exists (_name self). by destruct self. }
  destruct (bool_decide (_UART_SERVICE_UUID ∈ decode_services adv_data))
    eqn:Esvc; simpl.
  2: { split; [done|]. exists (_name self). by destruct self. }
  destruct (bool_decide (substring _ _ _ = _)) eqn:Ename; simpl.
  - destruct Hno. split_and!.
    + apply orb_prop in Eadv as [E|E]; apply bool_decide_eq_true in E; auto.
    + by apply bool_decide_eq_true in Esvc.
    + apply name_test. by apply bool_decide_eq_true in Ename.
  - split; [done|]. by eexists.
Qed.

(** X9: a scan-result event is taken for the target exactly when the
    advertisement is connectable, declares the UART service and carries a
    name that starts with the target name (any suffix may follow; an
    empty name never matches).  Only then is the advertiser's address
    cached, with its type and name, and the scan stopped.  For any other
    advertisement nothing is asked of the stack and at most the cached
    name changes. *)
Theorem scan_result_filter (self : state) (addr_type : Z) (addr : bytes)
    (adv_type rssi : Z) (adv_data : bytes) :
  let ev := IRQ_SCAN_RESULT addr_type addr adv_type rssi adv_data in
  (gap_scan_None ∈ snd (irq self ev) <-> target adv_type adv_data)
  /\ (target adv_type adv_data ->
      irq self ev
      = (set_name (Some (decode_name adv_data))
           (set_addr (Some addr) (set_addr_type (Some addr_type) self)),
         [gap_scan_None]))
  /\ (~ target adv_type adv_data ->
      snd (irq self ev) = []
      /\ exists n, fst (irq self ev) = set_name n self).
Proof.
  intros ev. subst ev. split_and!.
  - split.
    + intros H. simpl in H.
      destruct (bool_decide (adv_type = _ADV_IND)
                || bool_decide (adv_type = _ADV_DIRECT_IND)) eqn:Eadv;
        simpl in H; [|trace_inv H].
      destruct (bool_decide (_UART_SERVICE_UUID ∈ decode_services adv_data))
        eqn:Esvc; simpl in H; [|trace_inv H].
      destruct (bool_decide (substring _ _ _ = _)) eqn:Ename;
        simpl in H; [|trace_inv H].
      split_and!.
      * apply orb_prop in Eadv as [E|E]; apply bool_decide_eq_true in E; auto.
      * by apply bool_decide_eq_true in Esvc.
      * apply name_test. by apply bool_decide_eq_true in Ename.
    + intros Ht. rewrite scan_result_target by done. apply list_elem_of_here.
  - apply scan_result_target.
  - apply scan_result_other.
Qed.

(** Results of other advertisers keep a Central that is waiting for the
    scan to end waiting, with no address cached. *)
Lemma deliver_results_of_others results :
  Forall other results ->
  forall self,
    _addr self = None ->
    exists n,
      deliver self results = (set_name n self, []).
Proof.
  induction 1 as [|ev results Hev _ IH]; intros self Ha.
  - exists (_name self). by destruct self.
  - destruct ev; try done. cbn [Central.deliver].
    apply (scan_result_other self addr_type addr adv_type rssi adv_data) in Hev
      as [Ht [n Hs]].
    rewrite (surjective_pairing (irq self _)), Ht, Hs.
    destruct (IH (set_name n self) Ha) as [n' ->].
    exists n'. done.
Qed.

(** X10: a scan cycle without the target.  After [scan(cb)], whatever the
    object held before and whatever came of the scan request, any number
    of results from other advertisers followed by the scan-done event call
    [cb(None, None, None)], once, and nothing else happens: the scan is
    not stopped early and no address is cached. *)
Theorem scan_cycle_without_target (self : state) (cb : callback) (o : outcome)
    (results : list event) (Hres : Forall other results) :
  let waiting := fst (scan self (Some cb) o) in
  snd (deliver waiting (results ++ [IRQ_SCAN_DONE]))
  = [call_scan_callback cb None None None; print MsgScanFailure]
  /\ _addr (fst (deliver waiting (results ++ [IRQ_SCAN_DONE]))) = None
  /\ _addr_type (fst (deliver waiting (results ++ [IRQ_SCAN_DONE]))) = None.
Proof.
  intros waiting. rewrite deliver_app.
  destruct (deliver_results_of_others results Hres waiting eq_refl) as [n ->].
  subst waiting. destruct o; simpl; done.
Qed.

(** X11: a scan cycle with the target.  After [scan(cb)], results from
    other advertisers, then one from the target with a non-empty address,
    then the scan-done event: the scan is stopped at the target's result,
    [cb] is called once, with the address type, address and name of the
    target, and the callback reference is cleared. *)
Theorem scan_cycle_with_target (self : state) (cb : callback) (o : outcome)
    (results : list event) (addr_type : Z) (addr : bytes)
    (adv_type rssi : Z) (adv_data : bytes)
    (Hres : Forall other results)
    (Htarget : target adv_type adv_data)
    (Haddr : addr <> []) :
  let waiting := fst (scan self (Some cb) o) in
  let evs := results
             ++ [IRQ_SCAN_RESULT addr_type addr adv_type rssi adv_data; IRQ_SCAN_DONE] in
  snd (deliver waiting evs)
  = [gap_scan_None;
     call_scan_callback cb (Some addr_type) (Some addr) (Some (decode_name adv_data));
     print MsgScanSuccess]
  /\ _scan_callback (fst (deliver waiting evs)) = None
  /\ _addr (fst (deliver waiting evs)) = Some addr
  /\ _addr_type (fst (deliver waiting evs)) = Some addr_type
  /\ _name (fst (deliver waiting evs)) = Some (decode_name adv_data).
Proof.
  intros waiting evs. subst evs. rewrite deliver_app.
  destruct (deliver_results_of_others results Hres waiting eq_refl) as [n ->].
  cbn [Central.deliver]. rewrite scan_result_target by done.
  subst waiting. destruct addr as [|b addr]; [done|].
  destruct o; simpl; done.
Qed.

(** Exchanging the MTU and discovering services are requested from one
    place only. *)
Lemma discover_services_origin self ev h :
  gattc_discover_services h ∈ snd (irq self ev)
  \/ gattc_exchange_mtu h ∈ snd (irq self ev) ->
  exists c addr_type addr,
    ev = IRQ_PERIPHERAL_CONNECT c addr_type addr /\ h = Some c
    /\ Some addr_type = _addr_type self /\ Some addr = _addr self.
Proof.
  intros [H|H]; destruct ev; simpl in H;
    repeat case_match; simpl in H; trace_inv H;
    injection H as ->;
    match goal with
    | E : bool_decide _ && bool_decide _ = true |- _ =>
        apply andb_prop in E as [E1 E2];
        apply bool_decide_eq_true in E1, E2
    end; by do 3 eexists.
Qed.

(** X12: a connect event is taken only when its address type and address
    are the cached target's: then the session handle is recorded and the
    MTU exchange and the service discovery are requested on it, in that
    order.  Any other connect event is ignored but for the printed line:
    with no target cached every connect event is.  No other event
    requests an MTU exchange or a service discovery. *)
Theorem connect_event_matches_target (self : state) (c addr_type : Z) (addr : bytes) :
  (Some addr_type = _addr_type self /\ Some addr = _addr self ->
   irq self (IRQ_PERIPHERAL_CONNECT c addr_type addr)
   = (set_conn_handle (Some c) self,
      [gattc_exchange_mtu (Some c); gattc_discover_services (Some c);
       print (MsgConnected addr)]))
  /\ (Some addr_type <> _addr_type self \/ Some addr <> _addr self ->
      irq self (IRQ_PERIPHERAL_CONNECT c addr_type addr)
      = (self, [print (MsgConnected addr)]))
  /\ (forall ev h,
        gattc_discover_services h ∈ snd (irq self ev)
        \/ gattc_exchange_mtu h ∈ snd (irq self ev) ->
        exists c' addr_type' addr',
          ev = IRQ_PERIPHERAL_CONNECT c' addr_type' addr' /\ h = Some c'
          /\ Some addr_type' = _addr_type self /\ Some addr' = _addr self).
Proof.
  split_and!.
  - intros [Ht Ha]. simpl. by rewrite !bool_decide_eq_true_2.
  - intros [Ht|Ha]; simpl.
    + by rewrite (bool_decide_eq_false_2 _ Ht).
    + by rewrite (bool_decide_eq_false_2 _ Ha), andb_false_r.
  - apply discover_services_origin.
Qed.

(** X13: a disconnect event for the session handle the object holds,
    handle [0] included, puts every attribute back to its initial value:
    the object is not connected, [write] asks nothing, notifications are
    dropped and the notify callback has to be registered again.  A
    disconnect event for any other handle changes nothing; with no session
    every disconnect event is of that kind. *)
Theorem disconnect_event_resets (self : state) (c addr_type : Z) (addr : bytes) :
  (Some c = _conn_handle self ->
   irq self (IRQ_PERIPHERAL_DISCONNECT c addr_type addr)
   = (init, [print (MsgDisconnected addr)]))
  /\ (Some c <> _conn_handle self ->
      irq self (IRQ_PERIPHERAL_DISCONNECT c addr_type addr)
      = (self, [print (MsgDisconnected addr)]))
  /\ (Some c = _conn_handle self ->
      let after := fst (irq self (IRQ_PERIPHERAL_DISCONNECT c addr_type addr)) in
      is_connected after = false
      /\ (forall v response, write after v response = [])
      /\ (forall c' h d, irq after (IRQ_GATTC_NOTIFY c' h d) = (after, []))
      /\ irq after IRQ_GATTC_SERVICE_DONE = (after, [print MsgServiceUnreachable])).
Proof.
  assert (H1 : Some c = _conn_handle self ->
               irq self (IRQ_PERIPHERAL_DISCONNECT c addr_type addr)
               = (init, [print (MsgDisconnected addr)])).
  { intros Hc. simpl. by rewrite bool_decide_eq_true_2. }
  split_and!; [done | |].
  - intros Hc. simpl. by rewrite bool_decide_eq_false_2.
  - intros Hc after. subst after. rewrite (H1 Hc). by split_and!.
Qed.

(** X14: the notify callback is called exactly for a notify event on the
    current session handle and the TX value handle, when a callback is
    registered, and it receives the event's data as they are.  Notify
    events never change the object. *)
Theorem notify_dispatch (self : state) (ev : event) (cb : callback) (d : bytes) :
  (call_notify_callback cb d ∈ snd (irq self ev)
   <-> exists c h, ev = IRQ_GATTC_NOTIFY c h d
                   /\ Some c = _conn_handle self /\ Some h = _tx_handle self
                   /\ _notify_callback self = Some cb)
  /\ (forall c h, fst (irq self (IRQ_GATTC_NOTIFY c h d)) = self)
  /\ (forall c h,
        Some c = _conn_handle self -> Some h = _tx_handle self ->
        irq (on_notify self (Some cb)) (IRQ_GATTC_NOTIFY c h d)
        = (on_notify self (Some cb), [call_notify_callback cb d])).
Proof.
  split_and!.
  - split.
    + intros H. destruct ev; simpl in H; repeat case_match; simpl in H; trace_inv H.
      injection H as -> ->.
      match goal with
      | E : bool_decide _ && bool_decide _ = true |- _ =>
          apply andb_prop in E as [E1 E2];
          apply bool_decide_eq_true in E1, E2
      end. by do 2 eexists.
    + intros (c & h & -> & Hc & Hh & Hcb). simpl.
      rewrite !bool_decide_eq_true_2 by done. simpl. rewrite Hcb.
      apply list_elem_of_here.
  - intros c h. simpl. by repeat case_match.
  - intros c h Hc Hh. simpl. by rewrite !bool_decide_eq_true_2.
Qed.

Lemma deliver_two self ev1 ev2 :
  deliver self [ev1; ev2]
  = (fst (irq (fst (irq self ev1)) ev2),
     snd (irq self ev1) ++ snd (irq (fst (irq self ev1)) ev2)).
Proof.
  cbn [Central.deliver].
  destruct (irq self ev1) as [s1 t1]. cbn [fst snd].
  destruct (irq s1 ev2) as [s2 t2]. cbn [fst snd]. by rewrite app_nil_r.
Qed.

(** One characteristic result, as one decision. *)
Lemma characteristic_result_effect self c d v p u :
  irq self (IRQ_GATTC_CHARACTERISTIC_RESULT c d v p u)
  = (if bool_decide (Some c = _conn_handle self)
     then if bool_decide (u = _UART_RX_CHAR_UUID) then set_rx_handle (Some v) self
          else if bool_decide (u = _UART_TX_CHAR_UUID) then set_tx_handle (Some v) self
          else self
     else self, []).
Proof.
  simpl. destruct (bool_decide (Some c = _conn_handle self)) eqn:Ec; simpl;
    [|by rewrite Ec].
  destruct (bool_decide (u = _UART_RX_CHAR_UUID)) eqn:Eu; simpl; rewrite Ec; simpl;
    [|done].
  by apply bool_decide_eq_true in Eu as ->.
Qed.

(** X15: the results of a characteristic discovery may come in any
    order: two results for different identifiers leave the same object
    whichever comes first.  A result is recorded only for the current
    session handle and the RX or TX identifier; once both are recorded on
    a session the object is connected. *)
Theorem characteristic_results_commute (self : state)
    (c1 d1 v1 p1 : Z) (u1 : uuid) (c2 d2 v2 p2 : Z) (u2 : uuid)
    (Hu : u1 <> u2) :
  let r1 := IRQ_GATTC_CHARACTERISTIC_RESULT c1 d1 v1 p1 u1 in
  let r2 := IRQ_GATTC_CHARACTERISTIC_RESULT c2 d2 v2 p2 u2 in
  deliver self [r1; r2] = deliver self [r2; r1]
  /\ (Some c1 <> _conn_handle self
      \/ (u1 <> _UART_RX_CHAR_UUID /\ u1 <> _UART_TX_CHAR_UUID) ->
      irq self r1 = (self, []))
  /\ (Some c1 = _conn_handle self -> Some c2 = _conn_handle self ->
      u1 = _UART_RX_CHAR_UUID -> u2 = _UART_TX_CHAR_UUID ->
      _rx_handle (fst (deliver self [r1; r2])) = Some v1
      /\ _tx_handle (fst (deliver self [r1; r2])) = Some v2
      /\ is_connected (fst (deliver self [r1; r2])) = true).
Proof.
  intros r1 r2. subst r1 r2. split_and!.
  - rewrite !deliver_two, !characteristic_result_effect. cbn [fst snd].
    destruct (bool_decide (Some c1 = _conn_handle self)) eqn:E1,
             (bool_decide (u1 = _UART_RX_CHAR_UUID)) eqn:R1,
             (bool_decide (u1 = _UART_TX_CHAR_UUID)) eqn:T1;
      simpl;
      destruct (bool_decide (Some c2 = _conn_handle self)) eqn:E2,
               (bool_decide (u2 = _UART_RX_CHAR_UUID)) eqn:R2,
               (bool_decide (u2 = _UART_TX_CHAR_UUID)) eqn:T2;
      simpl; rewrite ?E1, ?R1, ?T1; simpl; try done;
      repeat match goal with
             | E : bool_decide _ = true |- _ => apply bool_decide_eq_true in E
             end;
      congruence.
  - rewrite characteristic_result_effect. intros [Hc|[Hrx Htx]].
    + by rewrite (bool_decide_eq_false_2 _ Hc).
    + rewrite (bool_decide_eq_false_2 _ Hrx), (bool_decide_eq_false_2 _ Htx).
      by destruct (bool_decide _).
  - intros Hc1 Hc2 -> ->.
    rewrite !deliver_two, !characteristic_result_effect. cbn [fst snd].
    rewrite (bool_decide_eq_true_2 _ Hc1). simpl.
    rewrite (bool_decide_eq_true_2 _ Hc2). simpl.
    unfold is_connected. simpl. by rewrite <- Hc1.
Qed.

End WithCodec.

(** X16: [write] asks for nothing unless the object is connected; when
    it is, it asks for exactly one write, on the session handle and the RX
    value handle the object holds (neither is [None]), of the payload as
    it is, with response mode [1] or [0] as asked. *)
Theorem write_requires_ready (self : state) (v : bytes) (response : bool) :
  (is_connected self = false -> write self v response = [])
  /\ (is_connected self = true ->
      exists c rx,
        _conn_handle self = Some c /\ _rx_handle self = Some rx
        /\ write self v response
           = [gattc_write (Some c) (Some rx) v (if response then 1 else 0)])
  /\ (forall a, a ∈ write self v response ->
        exists c rx, a = gattc_write (Some c) (Some rx) v (if response then 1 else 0)).
Proof.
  assert (Hready : is_connected self = true ->
            exists c rx, _conn_handle self = Some c /\ _rx_handle self = Some rx
              /\ write self v response
                 = [gattc_write (Some c) (Some rx) v (if response then 1 else 0)]).
  { unfold write. intros H. rewrite H. simpl. unfold is_connected in H.
    destruct (_conn_handle self) as [c|], (_tx_handle self), (_rx_handle self) as [rx|];
      try discriminate H. by exists c, rx. }
  split_and!; [|done|].
  - unfold write. by intros ->.
  - intros a Ha. destruct (is_connected self) eqn:E.
    + destruct (Hready eq_refl) as (c & rx & _ & _ & Hw). rewrite Hw in Ha.
      apply list_elem_of_singleton in Ha. by exists c, rx.
    + unfold write in Ha. rewrite E in Ha. by apply elem_of_nil in Ha.
Qed.

Lemma write_requires_ready_witness :
  write (discovered 64) (list_byte_of_string "ack") true
  = [gattc_write (Some 64) (Some 5) (list_byte_of_string "ack") 1]
  /\ write connected_only (list_byte_of_string "ack") true = [].
Proof.
  split.
  - destruct (write_requires_ready (discovered 64) (list_byte_of_string "ack") true)
      as (_ & H & _).
    destruct (H eq_refl) as (c & rx & Hc & Hrx & ->).
    injection Hc as <-. injection Hrx as <-. reflexivity.
  - by apply (write_requires_ready connected_only (list_byte_of_string "ack") true).
Defined.

(** X17: [connect] uses the address type and address given as arguments
    when both are given, and caches them; when one of the two is left
    out, the other is ignored and the cached pair is used.  It returns
    [True] exactly when such a pair is at hand, and then asks the stack
    for one connect with that pair; the result and the request are the
    same whether the stack raised or not. *)
Theorem connect_uses_given_or_cached (self : state)
    (addr_type : option Z) (addr : option bytes) (cb : option callback)
    (o : outcome) :
  (forall t a, addr_type = Some t -> addr = Some a ->
     connect self addr_type addr cb o
     = (set_conn_callback cb (set_addr (Some a) (set_addr_type (Some t) self)),
        true, [gap_connect (Some t) (Some a)]))
  /\ (forall t a, addr_type = None \/ addr = None ->
        _addr_type self = Some t -> _addr self = Some a ->
        connect self addr_type addr cb o
        = (set_conn_callback cb self, true, [gap_connect (Some t) (Some a)]))
  /\ (snd (fst (connect self addr_type addr cb o)) = true
      <-> (addr_type <> None /\ addr <> None)
          \/ (_addr_type self <> None /\ _addr self <> None))
  /\ connect self addr_type addr cb Returned
     = connect self addr_type addr cb RaisedOSError.
Proof.
  split_and!.
  - intros t a -> ->. by destruct o.
  - intros t a Hnone Ht Ha. unfold connect.
    destruct addr_type, addr; try (by destruct Hnone); simpl;
      rewrite Ht, Ha; by destruct o.
  - unfold connect.
    destruct addr_type, addr, (_addr_type self) eqn:Et, (_addr self) eqn:Ea;
      simpl; rewrite ?Et, ?Ea; simpl; split; intros H;
      try done; try (by left); try (by right);
      destruct H as [[? ?]|[? ?]]; done.
  - unfold connect. by repeat case_match.
Qed.

Lemma connect_uses_given_or_cached_witness :
  connect found_peer (Some 1) None (Some 7%nat) RaisedOSError
  = (set_conn_callback (Some 7%nat) found_peer, true,
     [gap_connect (Some 0) (Some peer_address)]).
Proof.
  destruct (connect_uses_given_or_cached found_peer (Some 1) None (Some 7%nat)
              RaisedOSError) as (_ & H & _).
  apply H; [by right | reflexivity | reflexivity].
Defined.

(** *** How long [wait_for_connection] runs *)

Lemma wait_loop_returns_iff fuel ticks_ms k t0 timeout_ms :
  wait_loop fuel ticks_ms k t0 timeout_ms = Some false
  <-> exists j, (k <= j < k + fuel)%nat /\ timeout_ms <= ticks_diff (ticks_ms j) t0.
Proof.
  revert k. induction fuel as [|fuel IH]; intros k; simpl.
  - split; [done | intros (j & ? & _); lia].
  - destruct (Z.ltb_spec (ticks_diff (ticks_ms k) t0) timeout_ms) as [Hlt|Hge].
    + rewrite IH. split; intros (j & Hj & Ht).
      * exists j. split; [lia | done].
      * exists j. split; [|done].
        destruct (decide (j = k)) as [->|]; lia.
    + split; [|done]. intros _. exists k. split; [lia | done].
Qed.

(** [ticks_diff] stays within half a period on either side, and is the
    plain difference as long as that is within half a period. *)
Lemma ticks_diff_range a b :
  - (_TICKS_PERIOD / 2) <= ticks_diff a b < _TICKS_PERIOD / 2.
Proof.
  unfold ticks_diff.
  pose proof (Z.mod_pos_bound (a - b + _TICKS_PERIOD / 2) _TICKS_PERIOD eq_refl) as H.
  change (_TICKS_PERIOD / 2) with 536870912 in *.
  change _TICKS_PERIOD with 1073741824 in *. lia.
Qed.

Lemma ticks_diff_small a b :
  - (_TICKS_PERIOD / 2) <= a - b < _TICKS_PERIOD / 2 ->
  ticks_diff a b = a - b.
Proof.
  intros H. unfold ticks_diff.
  change (_TICKS_PERIOD / 2) with 536870912 in *.
  change _TICKS_PERIOD with 1073741824 in *.
  rewrite Z.mod_small by lia. lia.
Qed.

(** The wrap-around of the counter does not show in [ticks_diff]. *)
Lemma ticks_diff_wrapping start j k :
  ticks_diff (wrapping_clock start j) (wrapping_clock start k)
  = ticks_diff (steady_clock start j) (steady_clock start k).
Proof.
  unfold ticks_diff, wrapping_clock. f_equal.
  rewrite <- Zplus_mod_idemp_l, <- Zminus_mod. by rewrite Zplus_mod_idemp_l.
Qed.

(** X18: [wait_for_connection] ends, with [False], at the first reading
    of the clock, after [t0], whose [ticks_diff] to [t0] is [timeout_ms]
    or more, and not before: with [fuel] readings allowed it returns
    exactly when one of the readings [1 .. fuel] is that far, and is
    still looping otherwise.  [ticks_diff] being the difference on the
    ring of the wrapping counter, a wrap-around of the counter during
    the wait does no harm, and for a [timeout_ms] of half the period or
    more the method never returns, whatever the clock. *)
Theorem wait_for_connection_returns_iff (fuel : nat) (ticks_ms : nat -> Z)
    (self : state) (status : bool) (timeout_ms : Z) :
  (wait_for_connection fuel ticks_ms self status timeout_ms = Some false
   <-> exists j, (1 <= j <= fuel)%nat
                 /\ timeout_ms <= ticks_diff (ticks_ms j) (ticks_ms O))
  /\ (wait_for_connection fuel ticks_ms self status timeout_ms = None
      <-> forall j, (1 <= j <= fuel)%nat ->
                    ticks_diff (ticks_ms j) (ticks_ms O) < timeout_ms)
  /\ (_TICKS_PERIOD / 2 <= timeout_ms ->
      wait_for_connection fuel ticks_ms self status timeout_ms = None)
  /\ (forall start,
        wait_for_connection fuel (wrapping_clock start) self status timeout_ms
        = wait_for_connection fuel (steady_clock start) self status timeout_ms).
Proof.
  assert (H1 : forall ticks,
            wait_for_connection fuel ticks self status timeout_ms = Some false
            <-> exists j, (1 <= j <= fuel)%nat
                  /\ timeout_ms <= ticks_diff (ticks j) (ticks O)).
  { intros ticks. unfold wait_for_connection. rewrite wait_loop_returns_iff.
    split; intros (j & Hj & Ht); exists j; (split; [lia | done]). }
  assert (H2 : forall ticks,
            wait_for_connection fuel ticks self status timeout_ms = None
            <-> forall j, (1 <= j <= fuel)%nat ->
                  ticks_diff (ticks j) (ticks O) < timeout_ms).
  { intros ticks. specialize (H1 ticks).
    destruct (wait_for_connection fuel ticks self status timeout_ms)
      as [[|]|] eqn:E.
    - by apply CentralFacts.wait_loop_never_true in E.
    - split; [done|]. intros Hall. destruct (proj1 H1 eq_refl) as (j & Hj & Ht).
      specialize (Hall j Hj). lia.
    - split; [|done]. intros _ j Hj.
      destruct (Z.lt_ge_cases (ticks_diff (ticks j) (ticks O)) timeout_ms)
        as [|Hge]; [done|].
      assert (None = Some false) as Habs; [|discriminate Habs].
      apply H1. exists j. split; [done | lia]. }
  split_and!; [apply H1 | apply H2 | |].
  - intros Hhalf. apply H2. intros j _.
    pose proof (ticks_diff_range (ticks_ms j) (ticks_ms O)). lia.
  - intros start.
    destruct (wait_for_connection fuel (steady_clock start) self status timeout_ms)
      as [[|]|] eqn:E.
    + by apply CentralFacts.wait_loop_never_true in E.
    + apply H1. apply H1 in E as (j & Hj & Ht). exists j.
      by rewrite ticks_diff_wrapping.
    + apply H2. intros j Hj. rewrite ticks_diff_wrapping.
      by apply (proj1 (H2 (steady_clock start)) E).
Qed.

(** A counter [50] ms short of its wrap-around: the wait of [100] ms ends
    at the second reading, across the wrap; a wait of half the period is
    still looping after any number of readings. *)
Lemma wait_for_connection_returns_iff_witness :
  wait_for_connection 2 (wrapping_clock (_TICKS_PERIOD - 50)) init false 100 = Some false
  /\ wait_for_connection 1 (wrapping_clock (_TICKS_PERIOD - 50)) init false 100 = None
  /\ wait_for_connection 1000 (steady_clock 0) init false (_TICKS_PERIOD / 2) = None.
Proof.
  split_and!.
  - destruct (wait_for_connection_returns_iff 2 (wrapping_clock (_TICKS_PERIOD - 50))
                init false 100) as (H & _).
    apply H. exists 2%nat. split; [lia | by vm_compute].
  - destruct (wait_for_connection_returns_iff 1 (wrapping_clock (_TICKS_PERIOD - 50))
                init false 100) as (_ & H & _).
    apply H. intros j Hj. assert (j = 1%nat) as -> by lia. by vm_compute.
  - destruct (wait_for_connection_returns_iff 1000 (steady_clock 0) init false
                (_TICKS_PERIOD / 2)) as (_ & _ & H & _).
    apply H. lia.
Defined.

(** On the steady clock a wait of less than half the period, less one
    sleep, does end: one loop test after the sleeps that cover it. *)
Lemma wait_for_connection_steady start self status timeout_ms :
  timeout_ms + _T_WAIT <= _TICKS_PERIOD / 2 ->
  wait_for_connection (S (Z.to_nat ((timeout_ms + 99) / 100)))
    (steady_clock start) self status timeout_ms = Some false.
Proof.
  intros Hlim. unfold wait_for_connection. apply wait_loop_returns_iff.
  set (n := Z.to_nat ((timeout_ms + 99) / 100)).
  exists (S n). split; [lia|].
  assert (Hn : timeout_ms <= 100 * Z.of_nat n < timeout_ms + 100 \/
               (timeout_ms <= 0 /\ n = 0%nat)).
  { subst n. pose proof (Z.div_mod (timeout_ms + 99) 100 ltac:(lia)) as Hd.
    pose proof (Z.mod_pos_bound (timeout_ms + 99) 100 ltac:(lia)) as Hm.
    destruct (Z.le_gt_cases 0 ((timeout_ms + 99) / 100)) as [Hq|Hq].
    - left. rewrite Z2Nat.id by done. lia.
    - right. split; [lia|]. by destruct ((timeout_ms + 99) / 100). }
  rewrite ticks_diff_small; unfold steady_clock, _T_WAIT in *;
    change (_TICKS_PERIOD / 2) with 536870912 in *; simpl Nat.pred; lia.
Qed.

(** *** The session invariant *)

Section Invariant.

Variable decode_services : bytes -> list uuid.
Variable decode_name : bytes -> string.

Lemma session_consistent_perform self u :
  session_consistent self ->
  session_consistent (fst (perform decode_services decode_name self u)).
Proof.
  unfold session_consistent. intros Hinv.
  destruct u as [ev|cb o|t a cb o|o|cb|v r|]; simpl.
  - destruct ev; simpl; repeat case_match; simpl; try done;
      intros Hn; try discriminate Hn;
      repeat match goal with
             | E : _ && _ = true |- _ => apply andb_prop in E as [? ?]
             end;
      repeat match goal with
             | E : bool_decide _ = true |- _ => apply bool_decide_eq_true in E
             end;
      try congruence.
  - done.
  - unfold connect. repeat case_match; simplify_eq; simpl; done.
  - unfold disconnect. by case_match.
  - done.
  - done.
  - done.
Qed.

(** X19: whatever events arrive and whatever methods are called, in any
    order, an object that holds no session handle holds no service span
    and no characteristic handle either.  Hence the object is connected
    exactly when it holds both characteristic handles. *)
Theorem session_consistent_run (self : state) (us : list use)
    (Hinv : session_consistent self) :
  session_consistent (fst (run decode_services decode_name self us))
  /\ (is_connected (fst (run decode_services decode_name self us)) = true
      <-> _tx_handle (fst (run decode_services decode_name self us)) <> None
          /\ _rx_handle (fst (run decode_services decode_name self us)) <> None).
Proof.
  assert (H : session_consistent (fst (run decode_services decode_name self us))).
  { revert self Hinv. induction us as [|u us IH]; intros self Hinv; [done|].
    simpl. pose proof (session_consistent_perform self u Hinv) as Hu.
    destruct (perform decode_services decode_name self u) as [s1 t1].
    specialize (IH s1 Hu).
    by destruct (run decode_services decode_name s1 us). }
  split; [done|].
  set (s := fst (run decode_services decode_name self us)) in *.
  unfold is_connected, session_consistent in *.
  destruct (_conn_handle s) as [c|].
  - destruct (_tx_handle s), (_rx_handle s); simpl; split; try done;
      intros [? ?]; done.
  - destruct (H eq_refl) as (_ & _ & -> & ->). simpl. split; [done|].
    by intros [? _].
Qed.

End Invariant.

(** Witnesses, with the codec of the examples. *)

Lemma target_is_target :
  advertises_target target_services target_name _ADV_IND [].
Proof.
  split_and!; [by left | apply list_elem_of_here | by exists EmptyString].
Qed.

Lemma scannable_is_other (addr : bytes) :
  result_of_other target_services target_name (IRQ_SCAN_RESULT 0 addr 3 (-70) []).
Proof. intros ([H|H] & _); discriminate H. Qed.

Lemma scan_result_filter_witness :
  _irq target_services target_name init (IRQ_SCAN_RESULT 0 peer_address _ADV_IND (-40) [])
  = (found_peer, [gap_scan_None])
  /\ snd (_irq target_services target_name init (IRQ_SCAN_RESULT 0 peer_address 3 (-40) []))
     = [].
Proof.
  split.
  - apply (scan_result_filter target_services target_name init 0 peer_address
             _ADV_IND (-40) []).
    exact target_is_target.
  - apply (scan_result_filter target_services target_name init 0 peer_address
             3 (-40) []).
    exact (scannable_is_other peer_address).
Defined.

Lemma scan_cycle_without_target_witness :
  snd (Central.deliver target_services target_name
         (fst (scan found_peer (Some 1%nat) Returned))
         ([IRQ_SCAN_RESULT 0 peer_address 3 (-70) []] ++ [IRQ_SCAN_DONE]))
  = [call_scan_callback 1%nat None None None; print MsgScanFailure].
Proof.
  apply (scan_cycle_without_target target_services target_name found_peer 1%nat
           Returned [IRQ_SCAN_RESULT 0 peer_address 3 (-70) []]).
  constructor; [exact (scannable_is_other peer_address) | constructor].
Defined.

Lemma scan_cycle_with_target_witness :
  snd (Central.deliver target_services target_name
         (fst (scan init (Some 1%nat) Returned))
         ([IRQ_SCAN_RESULT 0 [x01]%byte 3 (-70) []]
          ++ [IRQ_SCAN_RESULT 0 peer_address _ADV_IND (-40) []; IRQ_SCAN_DONE]))
  = [gap_scan_None;
     call_scan_callback 1%nat (Some 0) (Some peer_address) (Some "ID000001"%string);
     print MsgScanSuccess].
Proof.
  apply (scan_cycle_with_target target_services target_name init 1%nat Returned
           [IRQ_SCAN_RESULT 0 [x01]%byte 3 (-70) []] 0 peer_address _ADV_IND (-40) []).
  - constructor; [exact (scannable_is_other [x01]%byte) | constructor].
  - exact target_is_target.
  - discriminate.
Defined.

Lemma connect_event_matches_target_witness :
  _irq target_services target_name found_peer (IRQ_PERIPHERAL_CONNECT 64 0 peer_address)
  = (connected_only,
     [gattc_exchange_mtu (Some 64); gattc_discover_services (Some 64);
      print (MsgConnected peer_address)])
  /\ _irq target_services target_name found_peer (IRQ_PERIPHERAL_CONNECT 65 1 peer_address)
     = (found_peer, [print (MsgConnected peer_address)]).
Proof.
  split.
  - by apply (connect_event_matches_target target_services target_name
                found_peer 64 0 peer_address).
  - apply (connect_event_matches_target target_services target_name
             found_peer 65 1 peer_address).
    left. discriminate.
Defined.

Lemma disconnect_event_resets_witness :
  _irq target_services target_name (discovered 0) (IRQ_PERIPHERAL_DISCONNECT 0 0 peer_address)
  = (init, [print (MsgDisconnected peer_address)])
  /\ _irq target_services target_name (discovered 0) (IRQ_PERIPHERAL_DISCONNECT 64 0 peer_address)
     = (discovered 0, [print (MsgDisconnected peer_address)]).
Proof.
  split.
  - by apply (disconnect_event_resets target_services target_name
                (discovered 0) 0 0 peer_address).
  - apply (disconnect_event_resets target_services target_name
             (discovered 0) 64 0 peer_address).
    discriminate.
Defined.

Lemma notify_dispatch_witness :
  _irq target_services target_name (on_notify (discovered 64) (Some 9%nat))
    (IRQ_GATTC_NOTIFY 64 3 (list_byte_of_string "23|45|120"))
  = (on_notify (discovered 64) (Some 9%nat),
     [call_notify_callback 9%nat (list_byte_of_string "23|45|120")]).
Proof.
  destruct (notify_dispatch target_services target_name (discovered 64)
              IRQ_SCAN_DONE 9%nat (list_byte_of_string "23|45|120")) as (_ & _ & H).
  by apply H.
Defined.

Lemma characteristic_results_commute_witness :
  let rx := IRQ_GATTC_CHARACTERISTIC_RESULT 64 4 5 0x08 _UART_RX_CHAR_UUID in
  let tx := IRQ_GATTC_CHARACTERISTIC_RESULT 64 2 3 0x10 _UART_TX_CHAR_UUID in
  Central.deliver target_services target_name connected_only [rx; tx]
  = Central.deliver target_services target_name connected_only [tx; rx]
  /\ is_connected
       (fst (Central.deliver target_services target_name connected_only [rx; tx])) = true.
Proof.
  intros rx tx.
  assert (Hu : _UART_RX_CHAR_UUID <> _UART_TX_CHAR_UUID) by discriminate.
  destruct (characteristic_results_commute target_services target_name connected_only
              64 4 5 0x08 _UART_RX_CHAR_UUID 64 2 3 0x10 _UART_TX_CHAR_UUID Hu)
    as (H1 & _ & H3).
  split; [exact H1|]. by apply H3.
Defined.

Lemma session_consistent_run_witness :
  session_consistent
    (fst (run target_services target_name init
            [Scan (Some 1%nat) Returned;
             Event (IRQ_SCAN_RESULT 0 peer_address _ADV_IND (-40) []);
             Event IRQ_SCAN_DONE;
             Connect None None (Some 7%nat) Returned;
             Event (IRQ_PERIPHERAL_CONNECT 64 0 peer_address);
             Event (IRQ_GATTC_CHARACTERISTIC_RESULT 64 4 5 0x08 _UART_RX_CHAR_UUID);
             Disconnect RaisedOSError])).
Proof.
  assert (Hinit : session_consistent init) by (by intros _).
  apply (session_consistent_run target_services target_name init _ Hinit).
Defined.

End CentralExtra.
